(** * terraform_utils/hcl.go: printing Terraform resources as HCL

    A shallow embedding of [terraform_utils/hcl.go] (the AST sanitizer, the
    printer with its textual patches, resource-name sanitization and the
    document builder [HclPrint]) together with the properties of the
    specification that concern them.

    Go strings are byte sequences: they are modelled as [list ascii].  The
    functions of Go's [strings] and [unicode/utf8] packages the file calls are
    modelled after their documented behaviour; the JSON codec and the HCL
    parser and printer are external and enter as the fields of a class. *)

From Stdlib Require Import ZArith List Ascii String Bool Lia.
From Stdlib Require Import DecimalString.
From stdpp Require Import base option list gmap strings.

Local Open Scope Z_scope.

(** ** Go strings *)

(** A Go string literal without escapes. *)
Definition lit (s : String.string) : list ascii := list_ascii_of_string s.

Definition dquote : ascii := "034"%char.
Definition bslash : ascii := "092"%char.
Definition newline : ascii := "010"%char.

(** [len(s)] *)
Definition len {A} (l : list A) : Z := Z.of_nat (length l).

(** Run-time panics of the Go runtime that this file can raise. *)
Inductive panic :=
| SliceBoundsOutOfRange (lo hi : Z)
| IndexOutOfRange (i n : Z).

(** [l[lo:hi]] on a string or a slice (capacity taken equal to length):
    panics unless [0 <= lo <= hi <= len(l)]. *)
Definition goSlice {A} (l : list A) (lo hi : Z) : panic + list A :=
  if (0 <=? lo) && (lo <=? hi) && (hi <=? len l)
  then inr (take (Z.to_nat (hi - lo)) (drop (Z.to_nat lo) l))
  else inl (SliceBoundsOutOfRange lo hi).

(** [l[i]] *)
Definition goIndex {A} (l : list A) (i : Z) : panic + A :=
  if (0 <=? i) && (i <? len l)
  then match l !! Z.to_nat i with
       | Some x => inr x
       | None => inl (IndexOutOfRange i (len l))
       end
  else inl (IndexOutOfRange i (len l)).

Module strings.

(** [strings.HasPrefix(s, prefix)] *)
Fixpoint HasPrefix (s prefix : list ascii) : bool :=
  match prefix, s with
  | [], _ => true
  | _ :: _, [] => false
  | p :: prefix', c :: s' => Ascii.eqb c p && HasPrefix s' prefix'
  end.

(** [strings.IndexByte(s, c)]: index of the first [c] in [s], or -1. *)
Fixpoint IndexByte (s : list ascii) (c : ascii) : Z :=
  match s with
  | [] => -1
  | x :: s' =>
      if Ascii.eqb x c then 0
      else let i := IndexByte s' c in if i =? -1 then -1 else 1 + i
  end.

(** [strings.Index(s, substr)]: index of the first occurrence of [substr]
    in [s], or -1. *)
Fixpoint Index (s substr : list ascii) : Z :=
  if HasPrefix s substr then 0
  else match s with
       | [] => -1
       | _ :: s' => let i := Index s' substr in if i =? -1 then -1 else 1 + i
       end.

(** [strings.Contains(s, substr)] *)
Definition Contains (s substr : list ascii) : bool := 0 <=? Index s substr.

(** The scan of [strings.Replace(s, old, new, -1)] for a non-empty [old]:
    [k] is the number of bytes of the occurrence just matched that still lie
    ahead (the source's [start = j + len(old)]). *)
Fixpoint replaceFrom (old new : list ascii) (k : nat) (s : list ascii)
  : list ascii :=
  match s with
  | [] => []
  | c :: s' =>
      match k with
      | S k' => replaceFrom old new k' s'
      | O =>
          if HasPrefix s old
          then new ++ replaceFrom old new (length old - 1) s'
          else c :: replaceFrom old new 0 s'
      end
  end.

(** [strings.Replace(s, old, new, -1)]: every non-overlapping occurrence of
    [old], found left to right, is replaced by [new].  Every call of the file
    passes a non-empty [old] and [n = -1]; the library's treatment of an empty
    [old] (an insertion at every rune boundary) is not part of the model. *)
Definition Replace (s old new : list ascii) : list ascii :=
  replaceFrom old new 0 s.

Definition consHead (c : ascii) (l : list (list ascii)) : list (list ascii) :=
  match l with
  | [] => [[c]]
  | h :: t => (c :: h) :: t
  end.

Fixpoint splitFrom (sep : list ascii) (k : nat) (s : list ascii)
  : list (list ascii) :=
  match s with
  | [] => [[]]
  | c :: s' =>
      match k with
      | S k' => splitFrom sep k' s'
      | O =>
          if HasPrefix s sep
          then [] :: splitFrom sep (length sep - 1) s'
          else consHead c (splitFrom sep 0 s')
      end
  end.

(** [strings.Split(s, sep)] for a non-empty [sep] (the file splits on
    newlines only). *)
Definition Split (s sep : list ascii) : list (list ascii) :=
  splitFrom sep 0 s.

(** [strings.Join(elems, sep)] *)
Fixpoint Join (elems : list (list ascii)) (sep : list ascii) : list ascii :=
  match elems with
  | [] => []
  | [e] => e
  | e :: rest => e ++ sep ++ Join rest sep
  end.

End strings.

(** ** Name sanitization *)

(** [func TfSanitize(name string) string] *)
Definition TfSanitize (name : list ascii) : list ascii :=
  let name := strings.Replace name (lit "*.") [] in
  let name := strings.Replace name (lit ".") (lit "-") in
  let name := strings.Replace name (lit "/") (lit "--") in
  name.


(** ** UTF-8 decoding, as done by [for _, c := range s] *)

Definition byteZ (c : ascii) : Z := Z.of_N (N_of_ascii c).

(** The conversion [byte(x)] of an integer. *)
Definition byteOf (x : Z) : ascii := ascii_of_N (Z.to_N (x mod 256)).

Module utf8.

Definition RuneError : Z := 0xFFFD.
Definition RuneSelf : Z := 0x80.
Definition MaxRune : Z := 0x10FFFF.

(** The table [first] with [acceptRanges]: for the first byte of a multi-byte
    sequence, its length and the range allowed for its second byte; [None]
    for the bytes that do not start one (ASCII, continuation and invalid
    bytes). *)
Definition first (s0 : Z) : option (Z * Z * Z) :=
  if (0xC2 <=? s0) && (s0 <=? 0xDF) then Some (2, 0x80, 0xBF)
  else if s0 =? 0xE0 then Some (3, 0xA0, 0xBF)
  else if (0xE1 <=? s0) && (s0 <=? 0xEC) then Some (3, 0x80, 0xBF)
  else if s0 =? 0xED then Some (3, 0x80, 0x9F)
  else if (0xEE <=? s0) && (s0 <=? 0xEF) then Some (3, 0x80, 0xBF)
  else if s0 =? 0xF0 then Some (4, 0x90, 0xBF)
  else if (0xF1 <=? s0) && (s0 <=? 0xF3) then Some (4, 0x80, 0xBF)
  else if s0 =? 0xF4 then Some (4, 0x80, 0x8F)
  else None.

Definition continuation (b : Z) : bool := (0x80 <=? b) && (b <=? 0xBF).

(** [utf8.DecodeRuneInString(s)]: the first rune of [s] and its width in
    bytes; an invalid or truncated encoding gives [(RuneError, 1)]. *)
Definition DecodeRuneInString (s : list ascii) : Z * nat :=
  match s with
  | [] => (RuneError, 0%nat)
  | c0 :: r0 =>
      let s0 := byteZ c0 in
      if s0 <? RuneSelf then (s0, 1%nat)
      else
        match first s0 with
        | None => (RuneError, 1%nat)
        | Some (sz, lo, hi) =>
            if len s <? sz then (RuneError, 1%nat)
            else
              match r0 with
              | [] => (RuneError, 1%nat)
              | c1 :: r1 =>
                  let s1 := byteZ c1 in
                  if (s1 <? lo) || (hi <? s1) then (RuneError, 1%nat)
                  else if sz <=? 2
                  then (Z.lor (Z.shiftl (Z.land s0 0x1F) 6) (Z.land s1 0x3F),
                        2%nat)
                  else
                    match r1 with
                    | [] => (RuneError, 1%nat)
                    | c2 :: r2 =>
                        let s2 := byteZ c2 in
                        if negb (continuation s2) then (RuneError, 1%nat)
                        else if sz <=? 3
                        then (Z.lor (Z.lor (Z.shiftl (Z.land s0 0x0F) 12)
                                           (Z.shiftl (Z.land s1 0x3F) 6))
                                    (Z.land s2 0x3F), 3%nat)
                        else
                          match r2 with
                          | [] => (RuneError, 1%nat)
                          | c3 :: _ =>
                              let s3 := byteZ c3 in
                              if negb (continuation s3)
                              then (RuneError, 1%nat)
                              else (Z.lor (Z.lor (Z.lor
                                      (Z.shiftl (Z.land s0 0x07) 18)
                                      (Z.shiftl (Z.land s1 0x3F) 12))
                                      (Z.shiftl (Z.land s2 0x3F) 6))
                                      (Z.land s3 0x3F), 4%nat)
                          end
                    end
              end
        end
  end.

(** [utf8.ValidRune(r)] *)
Definition ValidRune (r : Z) : bool :=
  ((0 <=? r) && (r <? 0xD800)) || ((0xDFFF <? r) && (r <=? MaxRune)).

(** The bytes of [string(r)] ([utf8.AppendRune]). *)
Definition EncodeRune (r : Z) : list ascii :=
  if (0 <=? r) && (r <=? 0x7F) then [byteOf r]
  else if (0 <=? r) && (r <=? 0x7FF)
  then [byteOf (Z.lor 0xC0 (Z.shiftr r 6));
        byteOf (Z.lor 0x80 (Z.land r 0x3F))]
  else
    let r := if ValidRune r then r else RuneError in
    if r <=? 0xFFFF
    then [byteOf (Z.lor 0xE0 (Z.shiftr r 12));
          byteOf (Z.lor 0x80 (Z.land (Z.shiftr r 6) 0x3F));
          byteOf (Z.lor 0x80 (Z.land r 0x3F))]
    else [byteOf (Z.lor 0xF0 (Z.shiftr r 18));
          byteOf (Z.lor 0x80 (Z.land (Z.shiftr r 12) 0x3F));
          byteOf (Z.lor 0x80 (Z.land (Z.shiftr r 6) 0x3F));
          byteOf (Z.lor 0x80 (Z.land r 0x3F))].

End utf8.

(** The pairs [(i, c)] that [for i, c := range s] goes through: [i] is the
    byte offset of the next rune and [k] the number of bytes of the rune just
    decoded that are still to be skipped. *)
Fixpoint rangeFrom (i : Z) (k : nat) (s : list ascii) : list (Z * Z) :=
  match s with
  | [] => []
  | _ :: s' =>
      match k with
      | S k' => rangeFrom (i + 1) k' s'
      | O =>
          let (r, size) := utf8.DecodeRuneInString s in
          (i, r) :: rangeFrom (i + 1) (size - 1) s'
      end
  end.

Definition rangeString (s : list ascii) : list (Z * Z) := rangeFrom 0 0 s.

Module strings_rune.

(** The branch [r == utf8.RuneError] of [strings.IndexRune]: the offset of
    the first invalid encoding (or encoded U+FFFD) met by [range s]. *)
Fixpoint firstRuneError (l : list (Z * Z)) : Z :=
  match l with
  | [] => -1
  | (i, r) :: l' => if r =? utf8.RuneError then i else firstRuneError l'
  end.

(** [strings.IndexRune(s, r)] *)
Definition IndexRune (s : list ascii) (r : Z) : Z :=
  if (0 <=? r) && (r <? utf8.RuneSelf) then strings.IndexByte s (byteOf r)
  else if r =? utf8.RuneError then firstRuneError (rangeString s)
  else if negb (utf8.ValidRune r) then -1
  else strings.Index s (utf8.EncodeRune r).

End strings_rune.

(** ** The HCL syntax tree ([hcl/token], [hcl/ast]) *)

Module token.

(** [token.Pos] *)
Record Pos := mkPos {
  Filename : list ascii;
  Offset : Z;
  Line : Z;
  Column : Z
}.

(** [token.Token]; the field [Type] is written [Type_]. *)
Record Token := mkToken {
  Type_ : Z;
  TokPos : Pos;
  Text : list ascii;
  JSON : bool
}.

(** Token types referred to here ([token.STRING], [token.HEREDOC]). *)
Definition STRING : Z := 9.
Definition HEREDOC : Z := 10.

Definition setText (t : Token) (text : list ascii) : Token :=
  mkToken (Type_ t) (TokPos t) text (JSON t).

Definition setType (t : Token) (ty : Z) : Token :=
  mkToken ty (TokPos t) (Text t) (JSON t).

Definition setLine (p : Pos) (l : Z) : Pos :=
  mkPos (Filename p) (Offset p) l (Column p).

End token.

Module ast.

#[local] Set Warnings "-register-all".

(** [ast.ObjectKey] *)
Record ObjectKey := mkObjectKey { Token : token.Token }.

(** The nodes the sanitizer is handed.  Fields it never reads (comments,
    bracket positions) are left out; [OtherNode] stands for a value of any
    other dynamic type (a comment group, a nil interface, ...) and carries
    the name that [%T] prints for it. *)
Inductive Node :=
| File (node : Node)
| ObjectListNode (l : ObjectList)
| ObjectKeyNode (k : ObjectKey)
| ObjectItemNode (o : ObjectItem)
| LiteralType (tok : token.Token)
| ListType (list_ : list Node)
| ObjectType (list_ : ObjectList)
| OtherNode (typeName : list ascii)
with ObjectItem :=
| mkObjectItem (keys : list ObjectKey) (assign : token.Pos) (val : Node)
with ObjectList :=
| mkObjectList (items : list ObjectItem).

Definition Keys (o : ObjectItem) : list ObjectKey :=
  match o with mkObjectItem keys _ _ => keys end.
Definition Assign (o : ObjectItem) : token.Pos :=
  match o with mkObjectItem _ assign _ => assign end.
Definition Val (o : ObjectItem) : Node :=
  match o with mkObjectItem _ _ val => val end.
Definition Items (l : ObjectList) : list ObjectItem :=
  match l with mkObjectList items => items end.

End ast.

(** ** Effects: standard output and run-time panics *)

(** What a call leaves behind: its value and the chunks that the code of
    [hcl.go] has written to standard output so far, or the panic that ended
    the program.  What goes to standard error, and what an external library
    prints on its own account, is not recorded. *)
Inductive outcome (A : Type) :=
| Done (a : A) (out : list (list ascii))
| Panicked (p : panic) (out : list (list ascii)).
Arguments Done {A} a out.
Arguments Panicked {A} p out.

Definition M (A : Type) : Type := list (list ascii) -> outcome A.

Definition ret {A} (a : A) : M A := fun out => Done a out.

Definition bind {A B} (m : M A) (f : A -> M B) : M B :=
  fun out =>
    match m out with
    | Done a out' => f a out'
    | Panicked p out' => Panicked p out'
    end.

Notation "'do' x <- m ; k" := (bind m (fun x => k))
  (at level 10, x name, m at level 100, k at level 200).

(** A value that the runtime may refuse to compute. *)
Definition check {A} (x : panic + A) : M A :=
  fun out => match x with inl p => Panicked p out | inr a => Done a out end.

(** [fmt.Printf]: one more chunk on standard output. *)
Definition printf (line : list ascii) : M unit :=
  fun out => Done tt (out ++ [line]).

(** [log.Println]: the standard logger writes the line, behind its own
    prefix of date and time, to standard error; standard output is left as
    it is. *)
Definition logPrintln (line : list ascii) : M unit :=
  fun out => Done tt out.

(** Errors are carried by their message ([err.Error()]). *)
Inductive result (A : Type) :=
| Ok (a : A)
| Err (msg : list ascii).
Arguments Ok {A} a.
Arguments Err {A} msg.

(** ** The external libraries *)

(** [encoding/json] and the HCL parser and printer.  [GoValue] is the type of
    the dynamic values an [interface{}] can hold apart from nil, so that an
    [interface{}] is an [option GoValue]; the two [box] functions are the
    implicit conversions of a map to [interface{}].  A
    [map[string]interface{}] is a [gmap (list ascii) (option GoValue)]. *)
Class Externals := {
  GoValue : Type;
  boxMap : gmap (list ascii) (option GoValue) -> GoValue;
  boxMapOfMaps :
    gmap (list ascii) (gmap (list ascii) (option GoValue)) -> GoValue;
  (** [json.Unmarshal(data, &tmp)] into an empty [map[string]interface{}] *)
  json_Unmarshal : list ascii -> result (gmap (list ascii) (option GoValue));
  (** [json.MarshalIndent(v, prefix, indent)] of a [map[string]interface{}] *)
  json_MarshalIndent :
    gmap (list ascii) (option GoValue) -> list ascii -> list ascii ->
    result (list ascii);
  (** [hcl_parcer.Parse] *)
  hcl_parser_Parse : list ascii -> result ast.Node;
  (** [hcl_printer.Fprint] into a fresh buffer *)
  hcl_printer_Fprint : ast.Node -> result (list ascii);
  (** [hcl_printer.Format] *)
  hcl_printer_Format : list ascii -> result (list ascii)
}.

(** ** The sanitizer *)

(** [const safeChars] *)
Definition safeChars : list ascii :=
  lit "abcdefghijklmnopqrstuvwxyzABCDEFGHIJKLMNOPQRSTUVWXYZ0123456789-_".

(** The loop over the runes of [v] in [visitObjectItem], with its [break]:
    the final value of [safe]. *)
Fixpoint allSafe (runes : list (Z * Z)) : bool :=
  match runes with
  | [] => true
  | (_, c) :: rest =>
      if strings_rune.IndexRune safeChars c =? -1 then false
      else allSafe rest
  end.

(** The body of [if i == 0 { ... }] in [visitObjectItem]. *)
Definition unquoteKey (k : ast.ObjectKey) : M ast.ObjectKey :=
  let text := token.Text (ast.Token k) in
  match text with
  | [] => ret k
  | _ :: _ =>
      do c0 <- check (goIndex text 0);
      if negb (Ascii.eqb c0 dquote) then ret k
      else
        do cl <- check (goIndex text (len text - 1));
        if negb (Ascii.eqb cl dquote) then ret k
        else
          do v <- check (goSlice text 1 (len text - 1));
          let safe := allSafe (rangeString v) in
          if safe then ret (ast.mkObjectKey (token.setText (ast.Token k) v))
          else ret k
  end.

(** [for i, k := range o.Keys { if i == 0 { ... } }] *)
Fixpoint visitKeys (i : Z) (keys : list ast.ObjectKey)
  : M (list ast.ObjectKey) :=
  match keys with
  | [] => ret []
  | k :: rest =>
      do k' <- (if i =? 0 then unquoteKey k else ret k);
      do rest' <- visitKeys (i + 1) rest;
      ret (k' :: rest')
  end.

Section Sanitizer.
Context `{E : Externals}.

(** The heredoc branch of [visitObjectItem] (the case [*ast.LiteralType] of
    the switch on [o.Val]), as a function of the literal's token. *)
Definition heredoc (t : token.Token) : M token.Token :=
  if strings.HasPrefix (token.Text t) (dquote :: lit "<<")
  then
    do text <- check (goSlice (token.Text t) 1 (len (token.Text t)));
    do text <- check (goSlice text 0 (len text - 1));
    let text := strings.Replace text (bslash :: lit "n") [newline] in
    let text := strings.Replace text (bslash :: lit "t") [] in
    let t := token.setType (token.setText t text) 10 in
    let jsonTest := token.Text t in
    let lines := strings.Split jsonTest [newline] in
    do inner <- check (goSlice lines 1 (len lines - 1));
    let jsonTest := strings.Join inner [newline] in
    let jsonTest := strings.Replace jsonTest [bslash; dquote] [dquote] in
    match json_Unmarshal jsonTest with
    | Ok tmp =>
        match json_MarshalIndent tmp [] (lit "  ") with
        | Ok dataJsonBytes =>
            let jsonData := strings.Split dataJsonBytes [newline] in
            do line0 <- check (goIndex lines 0);
            let jsonData := [line0] ++ jsonData in
            do lineN <- check (goIndex lines (len lines - 1));
            let jsonData := jsonData ++ [lineN] in
            let hereDoc := strings.Join jsonData [newline] in
            ret (token.setText t hereDoc)
        | Err _ => ret t
        end
    | Err _ => ret t
    end
  else ret t.

(** [func (v *astSanitizer) visit(n interface{})] and [visitObjectItem]; the
    tree is mutated in place by the source and returned here.  In
    [visitObjectItem] the final [v.visit(o.Val)] does nothing when [o.Val] is
    a literal, which is why the literal case ends without a call. *)
Fixpoint visit (n : ast.Node) : M ast.Node :=
  match n with
  | ast.File node => do node' <- visit node; ret (ast.File node')
  | ast.ObjectListNode l =>
      do l' <- visitObjectList l; ret (ast.ObjectListNode l')
  | ast.ObjectKeyNode k => ret n
  | ast.ObjectItemNode o =>
      do o' <- visitObjectItem o; ret (ast.ObjectItemNode o')
  | ast.LiteralType _ => ret n
  | ast.ListType _ => ret n
  | ast.ObjectType l => do l' <- visitObjectList l; ret (ast.ObjectType l')
  | ast.OtherNode typeName =>
      do _ <- printf (lit " unknown type: " ++ typeName ++ [newline]);
      ret n
  end
with visitObjectItem (o : ast.ObjectItem) : M ast.ObjectItem :=
  match o with
  | ast.mkObjectItem keys assign val =>
      do keys' <- visitKeys 0 keys;
      do val' <-
        match val with
        | ast.LiteralType t => do t' <- heredoc t; ret (ast.LiteralType t')
        | _ => ret val
        end;
      let assign' := token.setLine assign 1 in
      do val'' <-
        match val with
        | ast.LiteralType _ => ret val'
        | _ => visit val
        end;
      ret (ast.mkObjectItem keys' assign' val'')
  end
with visitObjectList (l : ast.ObjectList) : M ast.ObjectList :=
  match l with
  | ast.mkObjectList items =>
      do items' <-
        (fix loop (its : list ast.ObjectItem) : M (list ast.ObjectItem) :=
           match its with
           | [] => ret []
           | o :: rest =>
               do o' <- visitObjectItem o;
               do rest' <- loop rest;
               ret (o' :: rest')
           end) items;
      ret (ast.mkObjectList items')
  end.

End Sanitizer.

(** ** The printer *)

Definition tab : ascii := "009"%char.

(** [%d] *)
Definition itoa (z : Z) : list ascii :=
  list_ascii_of_string (NilEmpty.string_of_int (Z.to_int z)).

(** Lines 131-135 of [hclPrint]: "Remove extra whitespace... but leave
    whitespace between resources". *)
Definition removeExtraWhitespace (s : list ascii) : list ascii :=
  let s := strings.Replace s [newline; newline] [newline] in
  let s :=
    strings.Replace s
      (lit "}" ++ [newline] ++ lit "resource")
      (lit "}" ++ [newline; newline] ++ lit "resource") in
  s.

(** Lines 137-140: the workaround for quotes escaped inside parentheses. *)
Definition unescapeQuotes (s : list ascii) : list ascii :=
  let s := strings.Replace s (lit "(" ++ [bslash; dquote]) (lit "(" ++ [dquote]) in
  let s := strings.Replace s ([bslash; dquote] ++ lit ")") ([dquote] ++ lit ")") in
  s.

(** Lines 142-144: "We don't need to escape > or <". *)
Definition unescapeAngles (s : list ascii) : list ascii :=
  let s := strings.Replace s (bslash :: lit "u003c") (lit "<") in
  let s := strings.Replace s (bslash :: lit "u003e") (lit ">") in
  s.

(** The dump of the text that failed to format:
    [for i, line := range strings.Split(s, "\n") { fmt.Printf("%d\t%s", i+1, line) }] *)
Fixpoint dumpLines (i : Z) (lines : list (list ascii)) : M unit :=
  match lines with
  | [] => ret tt
  | line :: rest =>
      do _ <- printf (itoa (i + 1) ++ [tab] ++ line);
      dumpLines (i + 1) rest
  end.

Section Printer.
Context `{E : Externals}.

(** [func hclPrint(node ast.Node) ([]byte, error)]; a nil or empty byte slice
    is [[]], a nil error is [None]. *)
Definition hclPrint (node : ast.Node) : M (list ascii * option (list ascii)) :=
  do node <- visit node;
  match hcl_printer_Fprint node with
  | Err err => ret ([], Some (lit "error writing HCL: " ++ err))
  | Ok s =>
      let s := removeExtraWhitespace s in
      let s := unescapeQuotes s in
      let s := unescapeAngles s in
      match hcl_printer_Format s with
      | Err err =>
          do _ <- logPrintln (lit "Invalid HCL follows:");
          do _ <- dumpLines 0 (strings.Split s [newline]);
          ret ([], Some (lit "error formatting HCL: " ++ err))
      | Ok formatted => ret (formatted, None)
      end
  end.

(** ** The document builder *)

(** Modelled from the spec: the declaration of [TerraformResource] is not in
    [hcl.go]; the specification gives a resource entry the fields read here,
    [ResourceType], [ResourceName] and [Item], a tree of JSON-serializable
    values (null included), which [HclPrint] stores in a
    [map[string]interface{}]. *)
Record TerraformResource := mkTerraformResource {
  ResourceType : list ascii;
  ResourceName : list ascii;
  Item : option GoValue
}.

(** [r[tfName] != nil] on a [map[string]interface{}]: a missing key and a
    key bound to nil both read as nil. *)
Definition nonNil (v : option (option GoValue)) : bool :=
  match v with
  | Some (Some _) => true
  | _ => false
  end.

(** The grouping loop of [HclPrint] (lines 171-185), from the map built so
    far: the completed [resourcesByType], or the error that ends the call. *)
Fixpoint groupResources (resources : list TerraformResource)
  (resourcesByType : gmap (list ascii) (gmap (list ascii) (option GoValue)))
  : result (gmap (list ascii) (gmap (list ascii) (option GoValue))) :=
  match resources with
  | [] => Ok resourcesByType
  | res :: rest =>
      let (r, resourcesByType) :=
        match resourcesByType !! ResourceType res with
        | Some r => (r, resourcesByType)
        | None => (∅, <[ResourceType res := ∅]> resourcesByType)
        end in
      let tfName := TfSanitize (ResourceName res) in
      if nonNil (r !! tfName)
      then Err (lit "duplicate resource found: " ++ ResourceType res
                  ++ lit "." ++ tfName)
      else
        groupResources rest
          (<[ResourceType res := <[tfName := Item res]> r]> resourcesByType)
  end.

(** Lines 169-197 of [HclPrint]: the JSON text that is handed to the HCL
    parser, or the error returned before that. *)
Definition terraformJson (resources : list TerraformResource)
  (provider : gmap (list ascii) (option GoValue)) : result (list ascii) :=
  match groupResources resources ∅ with
  | Err msg => Err msg
  | Ok resourcesByType =>
      let data : gmap (list ascii) (option GoValue) := ∅ in
      let data := <[lit "resource" := Some (boxMapOfMaps resourcesByType)]> data in
      let data := <[lit "provider" := Some (boxMap provider)]> data in
      match json_MarshalIndent data [] (lit "  ") with
      | Err err =>
          Err (lit "error marshalling terraform data to json: " ++ err)
      | Ok dataJsonBytes =>
          let dataJson := dataJsonBytes in
          let dataJson :=
            strings.Replace dataJson (bslash :: lit "u003c") (lit "<") in
          Ok dataJson
      end
  end.

(** [func HclPrint(resources []TerraformResource, provider map[string]interface{}) ([]byte, error)] *)
Definition HclPrint (resources : list TerraformResource)
  (provider : gmap (list ascii) (option GoValue))
  : M (list ascii * option (list ascii)) :=
  match terraformJson resources provider with
  | Err msg => ret ([], Some msg)
  | Ok dataJson =>
      match hcl_parser_Parse dataJson with
      | Err err => ret ([], Some (lit "error parsing terraform json: " ++ err))
      | Ok nodes =>
          do res <- hclPrint nodes;
          match res with
          | (_, Some err) => ret ([], Some err)
          | (hclBytes, None) => ret (hclBytes, None)
          end
      end
  end.

End Printer.

(** The key under which [HclPrint] files a resource, the test
    [resourcesByType[ty][name] != nil], and the message of the error. *)
Definition keyOf `{E : Externals} (res : TerraformResource)
  : list ascii * list ascii :=
  (ResourceType res, TfSanitize (ResourceName res)).

Definition occupied `{E : Externals}
  (m : gmap (list ascii) (gmap (list ascii) (option GoValue)))
  (k : list ascii * list ascii) : bool :=
  match m !! k.1 with
  | Some r => nonNil (r !! k.2)
  | None => false
  end.

Definition duplicateError (k : list ascii * list ascii) : list ascii :=
  lit "duplicate resource found: " ++ k.1 ++ lit "." ++ k.2.

(** Whether a call of the builder ended with the duplicate-resource error. *)
Definition reportsDuplicate
  (r : outcome (list ascii * option (list ascii))) : bool :=
  match r with
  | Done (_, Some msg) _ =>
      strings.HasPrefix msg (lit "duplicate resource found: ")
  | _ => false
  end.

(** The identifier-safety alphabet in the words of the specification: the
    letters a-z and A-Z, the digits 0-9, "-" and "_". *)
Definition inAlphabet (c : ascii) : Prop :=
  97 <= byteZ c <= 122 \/ 65 <= byteZ c <= 90 \/ 48 <= byteZ c <= 57 \/
  c = "-"%char \/ c = "_"%char.

(** The map after the entry [res] has been filed. *)
Definition filed `{E : Externals}
  (m : gmap (list ascii) (gmap (list ascii) (option GoValue)))
  (res : TerraformResource)
  : gmap (list ascii) (gmap (list ascii) (option GoValue)) :=
  <[ResourceType res :=
      <[TfSanitize (ResourceName res) := Item res]>
        (default ∅ (m !! ResourceType res))]> m.

(** The text of a heredoc literal after the quotes are stripped and the
    escaped newlines and tabs are undone (steps 1 and 2). *)
Definition heredocBody (text : list ascii) : list ascii :=
  strings.Replace
    (strings.Replace (take (length text - 2) (drop 1 text))
       (bslash :: lit "n") [newline])
    (bslash :: lit "t") [].



(** *** The layout in the words of the specification *)


(** The number of blocks that are open at the end of [u]: opening braces
    less closing braces. *)
Fixpoint braceDepth (u : list ascii) : Z :=
  match u with
  | [] => 0
  | c :: u' =>
      (if Ascii.eqb c "{" then 1 else if Ascii.eqb c "}" then -1 else 0)
      + braceDepth u'
  end.




(** *** The escapes in the words of the specification *)


(** The trees on which the traversal raises no run-time panic: no first key
    is a lone double quote, and no literal value that starts like a heredoc
    has a body of a single line. *)
Definition keysVisitable (keys : list ast.ObjectKey) : Prop :=
  match keys with
  | k :: _ => token.Text (ast.Token k) <> [dquote]
  | [] => True
  end.

Definition literalVisitable (t : token.Token) : Prop :=
  strings.HasPrefix (token.Text t) (dquote :: lit "<<") = true ->
  In newline (heredocBody (token.Text t)).

Fixpoint visitable (n : ast.Node) : Prop :=
  match n with
  | ast.File node => visitable node
  | ast.ObjectListNode l => visitableList l
  | ast.ObjectType l => visitableList l
  | ast.ObjectItemNode o => visitableItem o
  | _ => True
  end
with visitableItem (o : ast.ObjectItem) : Prop :=
  match o with
  | ast.mkObjectItem keys _ val =>
      keysVisitable keys /\
      match val with
      | ast.LiteralType t => literalVisitable t
      | _ => visitable val
      end
  end
with visitableList (l : ast.ObjectList) : Prop :=
  match l with
  | ast.mkObjectList items =>
      (fix all (its : list ast.ObjectItem) : Prop :=
         match its with
         | [] => True
         | o :: rest => visitableItem o /\ all rest
         end) items
  end.

(** ** A sample environment *)

(** Stand-ins for the external libraries, to run the pipeline on examples.
    Dynamic values are strings and maps.  The encoder is the table of Go's
    [json.MarshalIndent] restricted to the one document encoded in the
    examples: the resource [t.n] whose [Item] is the string [a<b>c], with an
    empty provider map.  The decoder rejects every text, the parser returns
    an empty file and the formatter returns its input. *)
Module Sample.

#[local] Set Warnings "-register-all".

Inductive value :=
| Str (s : list ascii)
| MapValue (m : gmap (list ascii) (option value))
| MapOfMapsValue (m : gmap (list ascii) (gmap (list ascii) (option value))).

Definition sampleJson : list ascii :=
  lit "{" ++ [newline] ++
  lit "  " ++ [dquote] ++ lit "provider" ++ [dquote] ++ lit ": {}," ++ [newline] ++
  lit "  " ++ [dquote] ++ lit "resource" ++ [dquote] ++ lit ": {" ++ [newline] ++
  lit "    " ++ [dquote] ++ lit "t" ++ [dquote] ++ lit ": {" ++ [newline] ++
  lit "      " ++ [dquote] ++ lit "n" ++ [dquote] ++ lit ": " ++
    [dquote] ++ lit "a" ++ [bslash] ++ lit "u003cb" ++ [bslash] ++ lit "u003ec"
    ++ [dquote] ++ [newline] ++
  lit "    }" ++ [newline] ++
  lit "  }" ++ [newline] ++
  lit "}".

Definition externals : Externals := {|
  GoValue := value;
  boxMap := MapValue;
  boxMapOfMaps := MapOfMapsValue;
  json_Unmarshal := fun _ => Err (lit "invalid character");
  json_MarshalIndent := fun _ _ _ => Ok sampleJson;
  hcl_parser_Parse := fun _ => Ok (ast.File (ast.ObjectListNode (ast.mkObjectList [])));
  hcl_printer_Fprint := fun _ => Ok [];
  hcl_printer_Format := fun s => Ok s
|}.

Definition resources : list (@TerraformResource externals) :=
  [@mkTerraformResource externals (lit "t") (lit "n") (Some (Str (lit "a<b>c")))].

(** The item [name = "x"] as the JSON parser builds it: key and value are
    string tokens that keep their quotes. *)
Definition noPos : token.Pos := token.mkPos [] 0 0 0.

Definition stringToken (s : list ascii) : token.Token :=
  token.mkToken token.STRING noPos ([dquote] ++ s ++ [dquote]) true.

Definition item : ast.ObjectItem :=
  ast.mkObjectItem [ast.mkObjectKey (stringToken (lit "name"))] noPos
    (ast.LiteralType (stringToken (lit "x"))).

(** The item [policy = "<<EOF"]: its value is a string that starts like a
    heredoc and has a single line. *)
Definition singleLineItem : ast.ObjectItem :=
  ast.mkObjectItem [ast.mkObjectKey (stringToken (lit "policy"))] noPos
    (ast.LiteralType (stringToken (lit "<<EOF"))).

(** The tree of the JSON text [{"policy": "<<EOF"}]. *)
Definition singleLineFile : ast.Node :=
  ast.File (ast.ObjectListNode (ast.mkObjectList [singleLineItem])).

(** The item with an empty key. *)
Definition emptyKeyItem : ast.ObjectItem :=
  ast.mkObjectItem [ast.mkObjectKey (stringToken [])] noPos
    (ast.LiteralType (stringToken (lit "x"))).

End Sample.

(** ** What the traversal leaves alone, what it prints, what it forces *)

(** A token without its text, and without its text and type. *)
Definition blankText (t : token.Token) : token.Token :=
  token.mkToken (token.Type_ t) (token.TokPos t) [] (token.JSON t).

Definition blankLiteral (t : token.Token) : token.Token :=
  token.mkToken 0 (token.TokPos t) [] (token.JSON t).

(** The tree without what the sanitizer may write: along the path of the
    traversal, the text of the first key of an item, the text and type of a
    literal that is the value of an item, and the line of [Assign]. *)
Fixpoint skeleton (n : ast.Node) : ast.Node :=
  match n with
  | ast.File node => ast.File (skeleton node)
  | ast.ObjectListNode l => ast.ObjectListNode (skeletonList l)
  | ast.ObjectItemNode o => ast.ObjectItemNode (skeletonItem o)
  | ast.ObjectType l => ast.ObjectType (skeletonList l)
  | _ => n
  end
with skeletonItem (o : ast.ObjectItem) : ast.ObjectItem :=
  match o with
  | ast.mkObjectItem keys assign val =>
      ast.mkObjectItem
        match keys with
        | k :: rest => ast.mkObjectKey (blankText (ast.Token k)) :: rest
        | [] => []
        end
        (token.setLine assign 0)
        match val with
        | ast.LiteralType t => ast.LiteralType (blankLiteral t)
        | _ => skeleton val
        end
  end
with skeletonList (l : ast.ObjectList) : ast.ObjectList :=
  match l with
  | ast.mkObjectList items =>
      ast.mkObjectList
        ((fix each (its : list ast.ObjectItem) : list ast.ObjectItem :=
            match its with
            | [] => []
            | o :: rest => skeletonItem o :: each rest
            end) items)
  end.

(** The reports of nodes of unrecognized kind, in the order of the
    traversal.  The elements of a list ([ast.ListType]) are not visited. *)
Fixpoint unknownLog (n : ast.Node) : list (list ascii) :=
  match n with
  | ast.File node => unknownLog node
  | ast.ObjectListNode l => unknownLogList l
  | ast.ObjectItemNode o => unknownLogItem o
  | ast.ObjectType l => unknownLogList l
  | ast.OtherNode typeName => [lit " unknown type: " ++ typeName ++ [newline]]
  | _ => []
  end
with unknownLogItem (o : ast.ObjectItem) : list (list ascii) :=
  match o with
  | ast.mkObjectItem _ _ val => unknownLog val
  end
with unknownLogList (l : ast.ObjectList) : list (list ascii) :=
  match l with
  | ast.mkObjectList items =>
      (fix each (its : list ast.ObjectItem) : list (list ascii) :=
         match its with
         | [] => []
         | o :: rest => unknownLogItem o ++ each rest
         end) items
  end.

(** Every item on the path of the traversal has [Assign.Line = 1]. *)
Fixpoint assignForced (n : ast.Node) : Prop :=
  match n with
  | ast.File node => assignForced node
  | ast.ObjectListNode l => assignForcedList l
  | ast.ObjectItemNode o => assignForcedItem o
  | ast.ObjectType l => assignForcedList l
  | _ => True
  end
with assignForcedItem (o : ast.ObjectItem) : Prop :=
  match o with
  | ast.mkObjectItem _ assign val => token.Line assign = 1 /\ assignForced val
  end
with assignForcedList (l : ast.ObjectList) : Prop :=
  match l with
  | ast.mkObjectList items =>
      (fix each (its : list ast.ObjectItem) : Prop :=
         match its with
         | [] => True
         | o :: rest => assignForcedItem o /\ each rest
         end) items
  end.

(** [resourcesByType[ty][name]] with the comma-ok of both lookups: [None]
    when the type or the name is missing. *)
Definition slot `{E : Externals}
  (m : gmap (list ascii) (gmap (list ascii) (option GoValue)))
  (k : list ascii * list ascii) : option (option GoValue) :=
  match m !! k.1 with
  | Some r => r !! k.2
  | None => None
  end.

(** What the dump prints for line number [i] (counted from 0). *)
Definition dumpChunk (i : Z) (line : list ascii) : list ascii :=
  itoa (i + 1) ++ [tab] ++ line.

Fixpoint dumpChunks (i : Z) (lines : list (list ascii)) : list (list ascii) :=
  match lines with
  | [] => []
  | line :: rest => dumpChunk i line :: dumpChunks (i + 1) rest
  end.

(** What a completed traversal has done to a tree: it kept the skeleton,
    printed the reports, forced the assignments, and left a tree on which a
    further traversal changes nothing. *)
Definition sanitized `{E : Externals}
  (n : ast.Node) (out : list (list ascii))
  (n' : ast.Node) (out' : list (list ascii)) : Prop :=
  skeleton n' = skeleton n /\
  out' = out ++ unknownLog n /\
  assignForced n' /\
  forall out2, visit n' out2 = Done n' (out2 ++ unknownLog n).

Definition sanitizedItem `{E : Externals}
  (o : ast.ObjectItem) (out : list (list ascii))
  (o' : ast.ObjectItem) (out' : list (list ascii)) : Prop :=
  skeletonItem o' = skeletonItem o /\
  out' = out ++ unknownLogItem o /\
  assignForcedItem o' /\
  forall out2, visitObjectItem o' out2 = Done o' (out2 ++ unknownLogItem o).

Definition sanitizedList `{E : Externals}
  (l : ast.ObjectList) (out : list (list ascii))
  (l' : ast.ObjectList) (out' : list (list ascii)) : Prop :=
  skeletonList l' = skeletonList l /\
  out' = out ++ unknownLogList l /\
  assignForcedList l' /\
  forall out2, visitObjectList l' out2 = Done l' (out2 ++ unknownLogList l).

(** The keys of an item without the text of the first. *)
Definition blankFirstKey (keys : list ast.ObjectKey) : list ast.ObjectKey :=
  match keys with
  | k :: rest => ast.mkObjectKey (blankText (ast.Token k)) :: rest
  | [] => []
  end.

(** ** A second sample environment *)

(** Stand-ins with a JSON decoder that accepts the one object [{"a": "b"}],
    an encoder that prints it the way Go indents it, a printer that renders
    two lines and a formatter that rejects its input. *)
Module SampleStrict.

Definition objectText : list ascii :=
  lit "{" ++ [dquote] ++ lit "a" ++ [dquote] ++ lit ": "
    ++ [dquote] ++ lit "b" ++ [dquote] ++ lit "}".

Definition prettyText : list ascii :=
  lit "{" ++ [newline] ++ lit "  " ++ [dquote] ++ lit "a" ++ [dquote]
    ++ lit ": " ++ [dquote] ++ lit "b" ++ [dquote] ++ [newline] ++ lit "}".

Definition rendered : list ascii :=
  lit "a = 1" ++ [newline] ++ lit "b = (" ++ [newline].

Definition externals : Externals := {|
  GoValue := Sample.value;
  boxMap := Sample.MapValue;
  boxMapOfMaps := Sample.MapOfMapsValue;
  json_Unmarshal := fun text =>
    if decide (text = objectText)
    then Ok {[ lit "a" := Some (Sample.Str (lit "b")) ]}
    else Err (lit "invalid character");
  json_MarshalIndent := fun _ _ _ => Ok prettyText;
  hcl_parser_Parse := fun _ => Ok (ast.File (ast.ObjectListNode (ast.mkObjectList [])));
  hcl_printer_Fprint := fun _ => Ok rendered;
  hcl_printer_Format := fun _ => Err (lit "At 2:6: expected expression")
|}.

(** The token of the JSON string of the specification's heredoc scenario:
    a heredoc marker, an escaped newline, the object with escaped quotes, an
    escaped newline and the closing marker. *)
Definition heredocToken : token.Token :=
  Sample.stringToken
    (lit "<<EOF" ++ [bslash] ++ lit "n"
       ++ lit "{" ++ [bslash; dquote] ++ lit "a" ++ [bslash; dquote] ++ lit ": "
       ++ [bslash; dquote] ++ lit "b" ++ [bslash; dquote] ++ lit "}"
       ++ [bslash] ++ lit "n" ++ lit "EOF").

(** A file with the item [name = "x"] and an item whose value is of a kind
    the traversal does not know. *)
Definition tree : ast.Node :=
  ast.File
    (ast.ObjectListNode
       (ast.mkObjectList
          [Sample.item;
           ast.mkObjectItem [ast.mkObjectKey (Sample.stringToken (lit "a.b"))]
             Sample.noPos (ast.OtherNode (lit "*ast.CommentGroup"))])).

(** Two entries with the same type and the same sanitized name. *)
Definition duplicates : list (@TerraformResource externals) :=
  [@mkTerraformResource externals (lit "t") (lit "a.b") (Some (Sample.Str (lit "x")));
   @mkTerraformResource externals (lit "t") (lit "a-b") (Some (Sample.Str (lit "y")))].

(** Two entries with different keys. *)
Definition distinct : list (@TerraformResource externals) :=
  [@mkTerraformResource externals (lit "t") (lit "a.b") (Some (Sample.Str (lit "x")));
   @mkTerraformResource externals (lit "u") (lit "a-b") None].

End SampleStrict.

(** Rendered texts with resource blocks. *)
Module SampleLayout.

(** [resource "ty" "name" {] *)
Definition header (ty name : String.string) : list ascii :=
  lit "resource " ++ [dquote] ++ lit ty ++ [dquote] ++ lit " "
    ++ [dquote] ++ lit name ++ [dquote] ++ lit " {".


(** A block without any blank line, with a heredoc in whose body a line
    that ends in a closing brace stands before a line that starts with
    [resource]. *)
Definition heredocBlock : list ascii :=
  header "a" "b" ++ [newline]
    ++ lit "  policy = <<EOF" ++ [newline]
    ++ lit "{" ++ [newline]
    ++ lit "}" ++ [newline]
    ++ lit "resources: none" ++ [newline]
    ++ lit "EOF" ++ [newline]
    ++ lit "}" ++ [newline].





End SampleLayout.

(** * Properties *)

(** ** The model at work *)

Example TfSanitize_example :
  TfSanitize (lit "*.example.com/a") = lit "example-com--a".
Proof. reflexivity. Qed.

(** Removing "*." can bring a "*" and a "." together; the second step then
    turns that "." into "-". *)
Example TfSanitize_star_example : TfSanitize (lit "**..") = lit "*-".
Proof. reflexivity. Qed.

Example Replace_example :
  strings.Replace (lit "aaaa-aaa") (lit "aa") (lit "b") = lit "bb-ba".
Proof. reflexivity. Qed.

Example Split_example :
  strings.Split (lit "a,b,,c,") (lit ",")
  = [lit "a"; lit "b"; []; lit "c"; []].
Proof. reflexivity. Qed.

Example Split_empty_example : strings.Split [] [newline] = [[]].
Proof. reflexivity. Qed.

Example Join_example :
  strings.Join [lit "a"; lit "b"; lit "c"] (lit ", ") = lit "a, b, c".
Proof. reflexivity. Qed.

(** The runes of "a", U+00E9, "b", U+20AC and an invalid byte. *)
Example rangeString_example :
  rangeString (lit "a" ++ [byteOf 0xC3; byteOf 0xA9] ++ lit "b"
                 ++ [byteOf 0xE2; byteOf 0x82; byteOf 0xAC] ++ [byteOf 0xFF])
  = [(0, 0x61); (1, 0xE9); (3, 0x62); (4, 0x20AC); (7, 0xFFFD)].
Proof. reflexivity. Qed.

Example EncodeRune_example :
  utf8.EncodeRune 0x20AC = [byteOf 0xE2; byteOf 0x82; byteOf 0xAC].
Proof. reflexivity. Qed.

Example removeExtraWhitespace_example :
  removeExtraWhitespace
    (lit "resource a {" ++ [newline; newline] ++ lit "}" ++ [newline]
       ++ lit "resource b {" ++ [newline] ++ lit "}")
  = lit "resource a {" ++ [newline] ++ lit "}" ++ [newline; newline]
      ++ lit "resource b {" ++ [newline] ++ lit "}".
Proof. reflexivity. Qed.

Example removeExtraWhitespace_heredoc_example :
  removeExtraWhitespace SampleLayout.heredocBlock
  = SampleLayout.header "a" "b" ++ [newline]
      ++ lit "  policy = <<EOF" ++ [newline]
      ++ lit "{" ++ [newline]
      ++ lit "}" ++ [newline; newline]
      ++ lit "resources: none" ++ [newline]
      ++ lit "EOF" ++ [newline]
      ++ lit "}" ++ [newline].
Proof. reflexivity. Qed.

Example unescapeAngles_example :
  unescapeAngles
    (lit "a " ++ [bslash] ++ lit "u003c b " ++ [bslash] ++ lit "u003e c "
       ++ [bslash] ++ lit "u003")
  = lit "a < b > c " ++ [bslash] ++ lit "u003".
Proof. reflexivity. Qed.

Example braceDepth_example :
  braceDepth (SampleLayout.header "a" "b" ++ [newline] ++ lit "  x = {}") = 1.
Proof. reflexivity. Qed.

(** A heredoc whose body is no JSON for the sample decoder: the quotes are
    stripped, the escaped newlines undone and the token becomes a heredoc. *)
Example heredoc_example :
  @heredoc Sample.externals
    (Sample.stringToken
       (lit "<<EOF" ++ [bslash] ++ lit "nhello" ++ [bslash] ++ lit "nEOF")) []
  = Done (token.mkToken token.HEREDOC Sample.noPos
            (lit "<<EOF" ++ [newline] ++ lit "hello" ++ [newline] ++ lit "EOF")
            true) [].
Proof. reflexivity. Qed.

Example visitObjectItem_example :
  @visitObjectItem Sample.externals Sample.item []
  = Done (ast.mkObjectItem
            [ast.mkObjectKey
               (token.mkToken token.STRING Sample.noPos (lit "name") true)]
            (token.mkPos [] 0 1 0)
            (ast.LiteralType (Sample.stringToken (lit "x")))) [].
Proof. reflexivity. Qed.

(** ** Facts about the model of Go's [strings] package *)

Module StringFacts.
Import strings.

Lemma eqb_ascii_true (a b : ascii) : Ascii.eqb a b = true <-> a = b.
Proof. apply Ascii.eqb_eq. Qed.

Lemma HasPrefix_nil_r (s : list ascii) : HasPrefix s [] = true.
Proof. destruct s; reflexivity. Qed.

Lemma HasPrefix_spec (s p : list ascii) :
  HasPrefix s p = true <-> exists v, s = p ++ v.
Proof.
  revert s. induction p as [|a p IH]; intros s.
  - rewrite HasPrefix_nil_r. split; [exists s; reflexivity | reflexivity].
  - destruct s as [|c s]; simpl.
    + split; [discriminate | intros [v Hv]; discriminate].
    + rewrite andb_true_iff, eqb_ascii_true, IH. split.
      * intros [-> [v ->]]. exists v. reflexivity.
      * intros [v Hv]. injection Hv as -> ->. split; [reflexivity | eauto].
Qed.

Lemma HasPrefix_app_same (p v : list ascii) : HasPrefix (p ++ v) p = true.
Proof. apply HasPrefix_spec. eauto. Qed.

Lemma HasPrefix_In (s p : list ascii) (c : ascii) :
  HasPrefix s p = true -> In c p -> In c s.
Proof.
  intros [v ->]%HasPrefix_spec Hc. apply in_or_app. left. exact Hc.
Qed.

Lemma HasPrefix_length (s p : list ascii) :
  HasPrefix s p = true -> (length p <= length s)%nat.
Proof. intros [v ->]%HasPrefix_spec. rewrite length_app. lia. Qed.

Lemma Index_nil (p : list ascii) :
  Index [] p = if HasPrefix [] p then 0 else -1.
Proof. reflexivity. Qed.

Lemma Index_cons (c : ascii) (s p : list ascii) :
  Index (c :: s) p =
  if HasPrefix (c :: s) p then 0
  else let i := Index s p in if i =? -1 then -1 else 1 + i.
Proof. reflexivity. Qed.

Lemma Index_lower (s p : list ascii) : -1 <= Index s p.
Proof.
  induction s as [|c s IH].
  - rewrite Index_nil. destruct (HasPrefix [] p); lia.
  - rewrite Index_cons. destruct (HasPrefix (c :: s) p); [lia|].
    cbv zeta. destruct (Z.eqb_spec (Index s p) (-1)); lia.
Qed.

Lemma Contains_nil (p : list ascii) : Contains [] p = HasPrefix [] p.
Proof.
  unfold Contains. rewrite Index_nil. destruct (HasPrefix [] p); reflexivity.
Qed.

Lemma Contains_cons (c : ascii) (s p : list ascii) :
  Contains (c :: s) p = HasPrefix (c :: s) p || Contains s p.
Proof.
  unfold Contains. rewrite Index_cons.
  destruct (HasPrefix (c :: s) p); [reflexivity|]. cbv zeta.
  pose proof (Index_lower s p).
  destruct (Z.eqb_spec (Index s p) (-1)) as [->|Hne]; simpl; [reflexivity|].
  destruct (Z.leb_spec 0 (1 + Index s p)), (Z.leb_spec 0 (Index s p)); lia || reflexivity.
Qed.

Lemma Contains_spec (s p : list ascii) :
  Contains s p = true <-> exists u v, s = u ++ p ++ v.
Proof.
  induction s as [|c s IH].
  - rewrite Contains_nil, HasPrefix_spec. split.
    + intros [v Hv]. exists [], v. exact Hv.
    + intros (u & v & Huv). destruct u; [eauto|discriminate].
  - rewrite Contains_cons, orb_true_iff, HasPrefix_spec, IH. split.
    + intros [[v Hv] | (u & v & ->)].
      * exists [], v. exact Hv.
      * exists (c :: u), v. reflexivity.
    + intros (u & v & Huv). destruct u as [|c' u].
      * left. eauto.
      * right. injection Huv as -> ->. eauto.
Qed.

Lemma Contains_false_cons (c : ascii) (s p : list ascii) :
  Contains (c :: s) p = false -> Contains s p = false.
Proof. rewrite Contains_cons. intros [_ H]%orb_false_iff. exact H. Qed.

Lemma Contains_false_drop (n : nat) (s p : list ascii) :
  Contains s p = false -> Contains (drop n s) p = false.
Proof.
  revert s. induction n as [|n IH]; intros s H; [exact H|].
  destruct s as [|c s]; [exact H|]. simpl.
  apply IH. eapply Contains_false_cons. exact H.
Qed.

(** An occurrence in [u ++ t] either lies in [t] or starts inside [u]. *)
Lemma Contains_app_head (u t : list ascii) (b : ascii) (q : list ascii) :
  Contains (u ++ t) (b :: q) = true -> In b u \/ Contains t (b :: q) = true.
Proof.
  induction u as [|c u IH]; simpl; intros H; [right; exact H|].
  rewrite Contains_cons in H. apply orb_true_iff in H as [H|H].
  - simpl in H. apply andb_true_iff in H as [Hc _].
    apply eqb_ascii_true in Hc. left. left. exact Hc.
  - destruct (IH H) as [Hin|Ht]; [left; right; exact Hin | right; exact Ht].
Qed.

(** *** Unfolding [Replace] *)

Lemma replaceFrom_drop (old new : list ascii) (k : nat) (s : list ascii) :
  replaceFrom old new k s = replaceFrom old new 0 (drop k s).
Proof.
  revert k. induction s as [|c s IH]; intros k.
  - destruct k; reflexivity.
  - destruct k as [|k]; [reflexivity|]. simpl. apply IH.
Qed.

Lemma replaceFrom_cons (old new : list ascii) (c : ascii) (s : list ascii) :
  replaceFrom old new 0 (c :: s) =
  if HasPrefix (c :: s) old
  then new ++ replaceFrom old new (length old - 1) s
  else c :: replaceFrom old new 0 s.
Proof. reflexivity. Qed.


Lemma Replace_match (s old new : list ascii) :
  old <> [] -> HasPrefix s old = true ->
  Replace s old new = new ++ Replace (drop (length old) s) old new.
Proof.
  intros Hold Hp. unfold Replace. destruct s as [|c s].
  - destruct old; [contradiction | discriminate].
  - rewrite replaceFrom_cons, Hp. f_equal. rewrite replaceFrom_drop.
    destruct old as [|a old]; [contradiction|]. simpl. rewrite Nat.sub_0_r.
    reflexivity.
Qed.

Lemma Replace_nomatch (c : ascii) (s old new : list ascii) :
  HasPrefix (c :: s) old = false ->
  Replace (c :: s) old new = c :: Replace s old new.
Proof. intros Hp. unfold Replace. rewrite replaceFrom_cons, Hp. reflexivity. Qed.

(** Strong induction on the text, as the scan of [Replace] needs it. *)
Lemma length_ind (P : list ascii -> Prop) :
  (forall s, (forall t, (length t < length s)%nat -> P t) -> P s) ->
  forall s, P s.
Proof.
  intros H s. remember (length s) as n eqn:Hn.
  revert s Hn. induction n as [n IH] using lt_wf_ind.
  intros s ->. apply H. intros t Ht. eapply IH; [exact Ht | reflexivity].
Qed.

Lemma drop_length_lt (n : nat) (c : ascii) (s : list ascii) :
  (0 < n)%nat -> (length (drop n (c :: s)) < length (c :: s))%nat.
Proof. intros Hn. rewrite length_drop. simpl. lia. Qed.

(** A text in which some byte of [old] does not occur is left as it is. *)
Lemma Replace_absent (s old new : list ascii) (c : ascii) :
  In c old -> ~ In c s -> Replace s old new = s.
Proof.
  intros Hc. induction s as [|x s IH]; intros Hs; [reflexivity|].
  rewrite Replace_nomatch.
  - f_equal. apply IH. intros Hin. apply Hs. right. exact Hin.
  - destruct (HasPrefix (x :: s) old) eqn:Hp; [|reflexivity].
    exfalso. apply Hs. eapply HasPrefix_In; eassumption.
Qed.

(** The bytes of the result come from the text or from [new]. *)
Lemma Replace_In (s old new : list ascii) (c : ascii) :
  old <> [] -> In c (Replace s old new) -> In c s \/ In c new.
Proof.
  intros Hold. induction s as [s IH] using length_ind. intros Hin.
  destruct s as [|x s]; [left; exact Hin|].
  destruct (HasPrefix (x :: s) old) eqn:Hp.
  - rewrite (Replace_match _ _ _ Hold Hp) in Hin.
    apply in_app_or in Hin as [Hin|Hin]; [right; exact Hin|].
    apply IH in Hin.
    + destruct Hin as [Hin|Hin]; [left|right; exact Hin].
      apply list_elem_of_In. eapply subseteq_drop. apply list_elem_of_In. exact Hin.
    + apply drop_length_lt. destruct old; [contradiction | simpl; lia].
  - rewrite (Replace_nomatch _ _ _ _ Hp) in Hin. destruct Hin as [->|Hin].
    + left. left. reflexivity.
    + apply IH in Hin; [|simpl; lia].
      destruct Hin as [Hin|Hin]; [left; right; exact Hin | right; exact Hin].
Qed.

(** Replacing a single byte leaves none of it, when [new] has none. *)
Lemma Replace_byte_gone (s new : list ascii) (c : ascii) :
  ~ In c new -> ~ In c (Replace s [c] new).
Proof.
  intros Hnew. induction s as [|x s IH]; [intros []|].
  destruct (HasPrefix (x :: s) [c]) eqn:Hp.
  - rewrite Replace_match by (congruence || exact Hp). simpl drop.
    intros [Hin|Hin]%in_app_or; [exact (Hnew Hin) | exact (IH Hin)].
  - rewrite Replace_nomatch by exact Hp. intros [->|Hin]; [|exact (IH Hin)].
    simpl in Hp. rewrite HasPrefix_nil_r, andb_true_r in Hp.
    rewrite Ascii.eqb_refl in Hp. discriminate.
Qed.

(** A prefix of the result that avoids the first byte of [new] is a prefix
    of the text. *)
Lemma Replace_HasPrefix_inv (old new' : list ascii) (n0 : ascii)
  (s q : list ascii) :
  old <> [] -> ~ In n0 q ->
  HasPrefix (Replace s old (n0 :: new')) q = true -> HasPrefix s q = true.
Proof.
  intros Hold. revert q. induction s as [|c s IH]; intros q Hq H.
  - exact H.
  - destruct q as [|q0 q]; [reflexivity|].
    destruct (HasPrefix (c :: s) old) eqn:Hp.
    + rewrite (Replace_match _ _ _ Hold Hp) in H. simpl in H.
      apply andb_true_iff in H as [Hc _]. apply eqb_ascii_true in Hc.
      exfalso. apply Hq. left. symmetry. exact Hc.
    + rewrite (Replace_nomatch _ _ _ _ Hp) in H. simpl in H |- *.
      apply andb_true_iff in H as [Hc H]. rewrite Hc. simpl.
      apply IH; [|exact H]. intros Hin. apply Hq. right. exact Hin.
Qed.

(** After the replacement no occurrence of [old] is left, provided [new] is
    not empty and shares no byte with [old]. *)
Lemma Replace_gone_cons (s q new' : list ascii) (b n0 : ascii) :
  (forall c, In c (n0 :: new') -> ~ In c (b :: q)) ->
  Contains (Replace s (b :: q) (n0 :: new')) (b :: q) = false.
Proof.
  intros Hdisj. induction s as [s IH] using length_ind.
  assert (Hold : b :: q <> []) by discriminate.
  destruct s as [|c s]; [reflexivity|].
  destruct (HasPrefix (c :: s) (b :: q)) eqn:Hp.
  - rewrite (Replace_match _ _ _ Hold Hp).
    apply not_true_iff_false. intros HC.
    apply Contains_app_head in HC as [Hin|HC].
    + apply (Hdisj b Hin). left. reflexivity.
    + rewrite IH in HC; [discriminate|]. apply drop_length_lt. simpl. lia.
  - rewrite (Replace_nomatch _ _ _ _ Hp), Contains_cons.
    rewrite (IH s) by (simpl; lia). rewrite orb_false_r.
    apply not_true_iff_false. intros HP.
    change (Ascii.eqb c b && HasPrefix (Replace s (b :: q) (n0 :: new')) q = true) in HP.
    apply andb_true_iff in HP as [Hc HP].
    apply Replace_HasPrefix_inv in HP; [|exact Hold|].
    + change (Ascii.eqb c b && HasPrefix s q = false) in Hp.
      rewrite Hc, HP in Hp. discriminate.
    + intros Hin. apply (Hdisj n0); [left; reflexivity | right; exact Hin].
Qed.

Lemma Replace_gone (s old new : list ascii) :
  old <> [] -> new <> [] -> (forall c, In c new -> ~ In c old) ->
  Contains (Replace s old new) old = false.
Proof.
  destruct old as [|b q]; [contradiction|].
  destruct new as [|n0 new']; [contradiction|].
  intros _ _. apply Replace_gone_cons.
Qed.

(** A pattern [q] that does not occur in the text does not occur in the
    result either, provided [new] is not empty and shares no byte with [q]. *)
Lemma Replace_keeps_absent_cons (s old new' q : list ascii) (b n0 : ascii) :
  old <> [] -> (forall c, In c (n0 :: new') -> ~ In c (b :: q)) ->
  Contains s (b :: q) = false ->
  Contains (Replace s old (n0 :: new')) (b :: q) = false.
Proof.
  intros Hold Hdisj. induction s as [s IH] using length_ind. intros Hs.
  destruct s as [|c s]; [exact Hs|].
  destruct (HasPrefix (c :: s) old) eqn:Hp.
  - rewrite (Replace_match _ _ _ Hold Hp).
    apply not_true_iff_false. intros HC.
    apply Contains_app_head in HC as [Hin|HC].
    + apply (Hdisj b Hin). left. reflexivity.
    + rewrite IH in HC; [discriminate| |].
      * apply drop_length_lt. destruct old; [contradiction|simpl; lia].
      * apply Contains_false_drop. exact Hs.
  - rewrite (Replace_nomatch _ _ _ _ Hp), Contains_cons.
    rewrite Contains_cons in Hs. apply orb_false_iff in Hs as [Hs0 Hs1].
    rewrite (IH s) by (simpl; lia || exact Hs1). rewrite orb_false_r.
    apply not_true_iff_false. intros HP.
    change (Ascii.eqb c b && HasPrefix (Replace s old (n0 :: new')) q = true) in HP.
    apply andb_true_iff in HP as [Hc HP].
    apply Replace_HasPrefix_inv in HP; [|exact Hold|].
    + change (Ascii.eqb c b && HasPrefix s q = false) in Hs0.
      rewrite Hc, HP in Hs0. discriminate.
    + intros Hin. apply (Hdisj n0); [left; reflexivity | right; exact Hin].
Qed.

Lemma Replace_keeps_absent (s old new q : list ascii) :
  old <> [] -> new <> [] -> (forall c, In c new -> ~ In c q) ->
  Contains s q = false -> Contains (Replace s old new) q = false.
Proof.
  intros Hold Hnew Hdisj Hs. destruct q as [|b q].
  { apply not_true_iff_false in Hs. exfalso. apply Hs. apply Contains_spec.
    exists [], s. reflexivity. }
  destruct new as [|n0 new']; [contradiction|].
  apply Replace_keeps_absent_cons; assumption.
Qed.

End StringFacts.

(** ** Name sanitization *)

Lemma TfSanitize_no_dot (name : list ascii) : ~ In "."%char (TfSanitize name).
Proof.
  unfold TfSanitize. intros Hin.
  apply StringFacts.Replace_In in Hin; [|vm_compute; discriminate].
  destruct Hin as [Hin|Hin].
  - revert Hin. apply (StringFacts.Replace_byte_gone _ (lit "-") "."%char).
    simpl. intros [H|[]]. discriminate.
  - simpl in Hin. destruct Hin as [H|[H|[]]]; discriminate.
Qed.

Lemma TfSanitize_no_slash (name : list ascii) : ~ In "/"%char (TfSanitize name).
Proof.
  unfold TfSanitize. apply (StringFacts.Replace_byte_gone _ (lit "--") "/"%char).
  simpl. intros [H|[H|[]]]; discriminate.
Qed.

(** C6: name sanitization is idempotent: for every resource name, applying
    [TfSanitize] (every "*." removed, then every "." turned into "-", then
    every "/" into "--") twice gives the same result as applying it once. *)
Theorem TfSanitize_idempotent (name : list ascii) :
  TfSanitize (TfSanitize name) = TfSanitize name.
Proof.
  pose proof (TfSanitize_no_dot name) as Hdot.
  pose proof (TfSanitize_no_slash name) as Hslash.
  set (m := TfSanitize name) in *. unfold TfSanitize.
  rewrite (StringFacts.Replace_absent m (lit "*.") _ "."%char);
    [|simpl; tauto|exact Hdot].
  rewrite (StringFacts.Replace_absent m (lit ".") _ "."%char);
    [|simpl; tauto|exact Hdot].
  apply (StringFacts.Replace_absent m (lit "/") _ "/"%char);
    [simpl; tauto|exact Hslash].
Qed.

(** ** The printer's escaping fixups *)

(** What [hclPrint] returns without error is what the formatter made of
    the rendered text after the three groups of patches. *)
Lemma hclPrint_formats_patched_text `{E : Externals} (node : ast.Node)
  out (bytes : list ascii) out' :
  hclPrint node out = Done (bytes, None) out' ->
  exists node' s,
    visit node out = Done node' out' /\
    hcl_printer_Fprint node' = Ok s /\
    hcl_printer_Format
      (unescapeAngles (unescapeQuotes (removeExtraWhitespace s))) = Ok bytes.
Proof.
  unfold hclPrint, bind. destruct (visit node out) as [n o|]; [|discriminate].
  destruct (hcl_printer_Fprint n) as [s|err] eqn:Hf; [|discriminate].
  destruct (hcl_printer_Format _) as [f|err] eqn:Hfmt.
  - unfold ret. intros [= <- <-]. exists n, s. repeat split; assumption.
  - unfold logPrintln. destruct (dumpLines _ _ o) as [[] o2|]; discriminate.
Qed.

(** ** The grouping loop of the document builder *)

Section Grouping.
Context `{E : Externals}.

Implicit Types m : gmap (list ascii) (gmap (list ascii) (option GoValue)).


Lemma groupResources_cons (res : TerraformResource) rest m :
  groupResources (res :: rest) m =
  if occupied m (keyOf res) then Err (duplicateError (keyOf res))
  else groupResources rest (filed m res).
Proof.
  unfold occupied, keyOf, duplicateError, filed. simpl.
  destruct (m !! ResourceType res) as [r|] eqn:Hr; simpl.
  - destruct (nonNil (r !! TfSanitize (ResourceName res))); reflexivity.
  - rewrite lookup_empty. simpl. rewrite insert_insert_eq. reflexivity.
Qed.

Lemma occupied_filed m (res : TerraformResource) (k : list ascii * list ascii) :
  occupied (filed m res) k =
  if decide (k = keyOf res) then bool_decide (is_Some (Item res))
  else occupied m k.
Proof.
  unfold occupied, filed, keyOf. destruct k as [ty n]. simpl.
  destruct (decide ((ty, n) = (ResourceType res, TfSanitize (ResourceName res))))
    as [Heq|Hne].
  - injection Heq as -> ->. rewrite !lookup_insert_eq.
    destruct (Item res); reflexivity.
  - destruct (decide (ty = ResourceType res)) as [->|Hty].
    + rewrite lookup_insert_eq, lookup_insert_ne by congruence.
      destruct (m !! ResourceType res); simpl; [reflexivity|].
      rewrite lookup_empty. reflexivity.
    + rewrite lookup_insert_ne by congruence. reflexivity.
Qed.

(** Entries with pairwise distinct keys and non-nil items, none of them on
    file yet, are filed without error; the entry that follows them is
    reported when its key is on file by then. *)
Lemma groupResources_duplicate_from
  (pre : list TerraformResource) (res : TerraformResource) post m :
  Forall (fun r => occupied m (keyOf r) = false) pre ->
  NoDup (map keyOf pre) ->
  Forall (fun r => Item r <> None) pre ->
  occupied m (keyOf res) = true \/ In (keyOf res) (map keyOf pre) ->
  groupResources (pre ++ res :: post) m = Err (duplicateError (keyOf res)).
Proof.
  revert m. induction pre as [|r pre IH]; intros m Hfree Hnd Hitems Hdup.
  - destruct Hdup as [Hocc|[]]. simpl app.
    rewrite groupResources_cons, Hocc. reflexivity.
  - simpl app. rewrite groupResources_cons.
    inversion Hfree as [|? ? Hr Hfree']; subst.
    inversion Hnd as [|? ? Hnotin Hnd']; subst.
    inversion Hitems as [|? ? Hitem Hitems']; subst.
    rewrite Hr. apply IH; [|exact Hnd'|exact Hitems'|].
    + apply Forall_forall. intros r' Hr'. rewrite occupied_filed.
      destruct (decide (keyOf r' = keyOf r)) as [Heq|_].
      * exfalso. apply Hnotin. rewrite <- Heq. apply list_elem_of_In.
        apply in_map. apply list_elem_of_In. exact Hr'.
      * eapply Forall_forall in Hfree'; [exact Hfree'|exact Hr'].
    + rewrite occupied_filed.
      destruct (decide (keyOf res = keyOf r)) as [Heq|Hne].
      * left. destruct (Item r); [reflexivity|contradiction].
      * destruct Hdup as [Hocc|[Heq|Hin]]; [left; exact Hocc| |right; exact Hin].
        exfalso. apply Hne. symmetry. exact Heq.
Qed.

(** A list with a repeated key splits at its first duplicate. *)
Lemma first_duplicate (l : list TerraformResource) :
  ~ NoDup (map keyOf l) ->
  exists pre res post,
    l = pre ++ res :: post /\ NoDup (map keyOf pre) /\
    In (keyOf res) (map keyOf pre).
Proof.
  induction l as [|x l IH] using rev_ind; intros Hdup.
  - exfalso. apply Hdup. constructor.
  - destruct (decide (NoDup (map keyOf l))) as [Hnd|Hnd].
    + exists l, x, []. split; [reflexivity|]. split; [exact Hnd|].
      destruct (decide (keyOf x ∈ map keyOf l)) as [Hin|Hnotin].
      * apply list_elem_of_In. exact Hin.
      * exfalso. apply Hdup. rewrite map_app. simpl.
        apply NoDup_app. split; [exact Hnd|]. split.
        -- intros y Hy Hy'. apply list_elem_of_singleton in Hy'. subst.
           exact (Hnotin Hy).
        -- apply NoDup_singleton.
    + destruct (IH Hnd) as (pre & res & post & -> & Hpre & Hin).
      exists pre, res, (post ++ [x]). split; [|split; assumption].
      rewrite <- app_assoc. reflexivity.
Qed.

(** X13: the builder on a list with a repeated key whose entries all carry
    non-nil items: the call ends with the duplicate-resource error for the
    first entry whose key was filed before, and returns no output. *)
Lemma HclPrint_duplicate_resource (resources : list TerraformResource)
  (provider : gmap (list ascii) (option GoValue)) :
  Forall (fun r => Item r <> None) resources ->
  ~ NoDup (map keyOf resources) ->
  exists pre res post,
    resources = pre ++ res :: post /\ NoDup (map keyOf pre) /\
    In (keyOf res) (map keyOf pre) /\
    forall out,
      HclPrint resources provider out
      = Done ([], Some (duplicateError (keyOf res))) out.
Proof.
  intros Hitems Hdup.
  destruct (first_duplicate _ Hdup) as (pre & res & post & -> & Hnd & Hin).
  exists pre, res, post. repeat split; try assumption.
  intros out. unfold HclPrint, terraformJson.
  rewrite (groupResources_duplicate_from pre res post ∅); [reflexivity| | | |].
  - apply Forall_forall. intros r _. unfold occupied.
    rewrite lookup_empty. reflexivity.
  - exact Hnd.
  - apply Forall_app in Hitems as [Hitems _]. exact Hitems.
  - right. exact Hin.
Qed.

End Grouping.

Section Builder.
Context `{E : Externals}.

Lemma hclPrint_error_prefix (node : ast.Node) out bytes msg out' :
  hclPrint node out = Done (bytes, Some msg) out' ->
  strings.HasPrefix msg (lit "error ") = true.
Proof.
  unfold hclPrint, bind. destruct (visit node out) as [n o|]; [|discriminate].
  destruct (hcl_printer_Fprint n) as [s|err].
  - destruct (hcl_printer_Format _) as [f|err]; [discriminate|].
    unfold logPrintln. destruct (dumpLines _ _ o) as [[] o2|]; [|discriminate].
    unfold ret. intros [= <- <- <-]. reflexivity.
  - unfold ret. intros [= <- <- <-]. reflexivity.
Qed.

(** C1 (the code departs from the specification): two entries with the same
    (ResourceType, sanitized name) pair of which the first carries a nil
    Item.  The grouping loop tests the slot with [!= nil], finds it free, and
    overwrites it: the loop ends without error with the second Item in the
    slot, and the call does not end with the duplicate-resource error. *)
Theorem HclPrint_nil_item_overwritten (v : GoValue)
  (provider : gmap (list ascii) (option GoValue)) (out : list (list ascii)) :
  let first := mkTerraformResource (lit "t") (lit "a") None in
  let second := mkTerraformResource (lit "t") (lit "a") (Some v) in
  keyOf first = keyOf second /\
  groupResources [first; second] ∅
    = Ok {[ lit "t" := {[ lit "a" := Some v ]} ]} /\
  reportsDuplicate (HclPrint [first; second] provider out) = false.
Proof.
  intros first second.
  assert (Hg : groupResources [first; second] ∅
               = Ok {[ lit "t" := {[ lit "a" := Some v ]} ]}).
  { rewrite !groupResources_cons. rewrite occupied_filed.
    unfold occupied at 1. rewrite lookup_empty.
    rewrite decide_True by reflexivity. simpl.
    unfold filed. simpl. rewrite !lookup_empty. simpl.
    rewrite lookup_insert_eq. simpl.
    rewrite !insert_insert_eq. reflexivity. }
  split; [reflexivity|]. split; [exact Hg|].
  unfold HclPrint, terraformJson. rewrite Hg.
  destruct (json_MarshalIndent _ _ _) as [bytes|err]; [|reflexivity].
  destruct (hcl_parser_Parse _) as [nodes|err]; [|reflexivity].
  unfold bind. destruct (hclPrint nodes out) as [[b [msg|]] o|] eqn:Hp;
    [|reflexivity|reflexivity].
  unfold ret, reportsDuplicate.
  apply hclPrint_error_prefix in Hp.
  apply StringFacts.HasPrefix_spec in Hp as [rest ->]. reflexivity.
Qed.

(** C9: name sanitization is not injective.  The names "a.b" and "a-b" both
    become "a-b", and "a/b" and "a--b" both become "a--b"; two entries of one
    ResourceType named "a.b" and "a-b" therefore collide, and the builder
    ends with the duplicate-resource error for that type and "a-b". *)
Theorem TfSanitize_not_injective (ty : list ascii) (v1 v2 : GoValue)
  (provider : gmap (list ascii) (option GoValue)) (out : list (list ascii)) :
  (lit "a.b" <> lit "a-b" /\
   TfSanitize (lit "a.b") = lit "a-b" /\ TfSanitize (lit "a-b") = lit "a-b") /\
  (lit "a/b" <> lit "a--b" /\
   TfSanitize (lit "a/b") = lit "a--b" /\ TfSanitize (lit "a--b") = lit "a--b") /\
  HclPrint [mkTerraformResource ty (lit "a.b") (Some v1);
            mkTerraformResource ty (lit "a-b") (Some v2)] provider out
  = Done ([], Some (lit "duplicate resource found: " ++ ty ++ lit ".a-b")) out.
Proof.
  split; [|split].
  - split; [discriminate|]. split; reflexivity.
  - split; [discriminate|]. split; reflexivity.
  - unfold HclPrint, terraformJson.
    rewrite (groupResources_duplicate_from
               [mkTerraformResource ty (lit "a.b") (Some v1)]
               (mkTerraformResource ty (lit "a-b") (Some v2)) [] ∅).
    + reflexivity.
    + apply Forall_forall. intros r _. unfold occupied.
      rewrite lookup_empty. reflexivity.
    + apply NoDup_singleton.
    + apply Forall_singleton. discriminate.
    + right. left. reflexivity.
Qed.

End Builder.

(** ** Runes and the identifier-safety alphabet *)

Module RuneFacts.

Lemma byteZ_range (c : ascii) : 0 <= byteZ c < 256.
Proof.
  unfold byteZ. pose proof (N_ascii_bounded c). lia.
Qed.

Lemma byteOf_byteZ (c : ascii) : byteOf (byteZ c) = c.
Proof.
  unfold byteOf. rewrite Z.mod_small by apply byteZ_range.
  unfold byteZ. rewrite N2Z.id. apply ascii_N_embedding.
Qed.

Lemma byteZ_byteOf (z : Z) : byteZ (byteOf z) = z mod 256.
Proof.
  unfold byteZ, byteOf. pose proof (Z.mod_pos_bound z 256 eq_refl).
  rewrite N_ascii_embedding by lia. rewrite Z2N.id by lia. reflexivity.
Qed.

Lemma safeChars_ascii (c : ascii) : In c safeChars -> byteZ c < 128.
Proof.
  assert (H : Forall (fun c => byteZ c < 128) safeChars).
  { unfold safeChars. apply Forall_forall. intros x Hx. apply list_elem_of_In in Hx.
    vm_compute in Hx. repeat (destruct Hx as [<-|Hx]; [reflexivity|]).
    destruct Hx. }
  intros Hin. eapply Forall_forall in H; [exact H|]. apply list_elem_of_In. exact Hin.
Qed.

Lemma IndexByte_In (s : list ascii) (c : ascii) :
  strings.IndexByte s c <> -1 <-> In c s.
Proof.
  induction s as [|x s IH]; simpl.
  - split; [congruence|intros []].
  - destruct (Ascii.eqb x c) eqn:Hx.
    + apply Ascii.eqb_eq in Hx. split; [intros _; left; exact Hx|discriminate].
    + apply Ascii.eqb_neq in Hx.
      assert (Hlow : -1 <= strings.IndexByte s c).
      { clear. induction s as [|y s IHs]; simpl; [lia|].
        destruct (Ascii.eqb y c); [lia|].
        destruct (Z.eqb_spec (strings.IndexByte s c) (-1)); lia. }
      destruct (Z.eqb_spec (strings.IndexByte s c) (-1)) as [Heq|Hne].
      * split; [congruence|]. intros [Hc|Hin]; [contradiction|].
        apply IH in Hin. contradiction.
      * split; [intros _; right; apply IH; exact Hne | intros _; lia].
Qed.

Lemma Index_absent_head (s q : list ascii) (b : ascii) :
  ~ In b s -> strings.Index s (b :: q) = -1.
Proof.
  induction s as [|x s IH]; intros Hb; [reflexivity|].
  rewrite StringFacts.Index_cons.
  destruct (strings.HasPrefix (x :: s) (b :: q)) eqn:Hp.
  - exfalso. apply Hb. eapply StringFacts.HasPrefix_In; [exact Hp|left; reflexivity].
  - cbv zeta. rewrite IH; [reflexivity|]. intros Hin. apply Hb. right. exact Hin.
Qed.

Lemma lor_lower_l (a b : Z) : 0 <= b -> a <= Z.lor a b.
Proof.
  intros Hb. pose proof (Z.sub_lor_l_same_l b a) as H.
  assert (0 <= Z.land b (Z.lnot a)) by (apply Z.land_nonneg; left; exact Hb).
  lia.
Qed.

Lemma lor_lower_r (a b : Z) : 0 <= a -> b <= Z.lor a b.
Proof. intros Ha. rewrite Z.lor_comm. apply lor_lower_l. exact Ha. Qed.

Lemma shiftl_land_ones (x k n : Z) :
  0 <= k -> 0 <= n -> Z.shiftl (Z.land x (Z.ones k)) n = (x mod 2 ^ k) * 2 ^ n.
Proof.
  intros Hk Hn. rewrite Z.land_ones by exact Hk.
  rewrite Z.shiftl_mul_pow2 by exact Hn. reflexivity.
Qed.

Lemma land_ones_nonneg (x k : Z) : 0 <= k -> 0 <= Z.land x (Z.ones k).
Proof.
  intros Hk. rewrite Z.land_ones by exact Hk. apply Z.mod_pos_bound.
  apply Z.pow_pos_nonneg; lia.
Qed.

(** A byte with its top bit set is none of the safe characters. *)
Lemma high_byte_unsafe (K x : Z) :
  Z.testbit K 7 = true -> ~ In (byteOf (Z.lor K x)) safeChars.
Proof.
  intros HK Hin. apply safeChars_ascii in Hin. rewrite byteZ_byteOf in Hin.
  pose proof (Z.mod_pos_bound (Z.lor K x) 256 eq_refl) as Hb.
  assert (Hbit : Z.testbit (Z.lor K x mod 2 ^ 8) 7 = true).
  { rewrite Z.mod_pow2_bits_low by lia. rewrite Z.lor_spec, HK. reflexivity. }
  change (2 ^ 8) with 256 in Hbit.
  rewrite <- (Z.mod_small (Z.lor K x mod 256) (2 ^ 7)) in Hbit
    by (change (2 ^ 7) with 128; lia).
  rewrite Z.mod_pow2_bits_high in Hbit by lia. discriminate.
Qed.

(** No rune outside ASCII is found in [safeChars]. *)
Lemma IndexRune_nonascii (r : Z) :
  0x80 <= r -> strings_rune.IndexRune safeChars r = -1.
Proof.
  intros Hr. unfold strings_rune.IndexRune, utf8.RuneSelf.
  replace (r <? 128) with false by (symmetry; apply Z.ltb_ge; exact Hr).
  rewrite andb_false_r.
  destruct (r =? utf8.RuneError); [vm_compute; reflexivity|].
  destruct (utf8.ValidRune r) eqn:Hv; [|reflexivity]. simpl negb. cbv iota.
  unfold utf8.EncodeRune.
  replace (r <=? 127) with false by (symmetry; apply Z.leb_gt; lia).
  rewrite andb_false_r. rewrite Hv.
  destruct ((0 <=? r) && (r <=? 2047)).
  - apply Index_absent_head. apply high_byte_unsafe. reflexivity.
  - destruct (r <=? 65535); apply Index_absent_head; apply high_byte_unsafe;
      reflexivity.
Qed.

(** A sequence that starts with a byte outside ASCII decodes to a rune
    outside ASCII. *)
Lemma DecodeRune_nonascii (c : ascii) (s : list ascii) :
  0x80 <= byteZ c -> 0x80 <= fst (utf8.DecodeRuneInString (c :: s)).
Proof.
  intros Hc. unfold utf8.DecodeRuneInString, utf8.RuneSelf.
  replace (byteZ c <? 128) with false by (symmetry; apply Z.ltb_ge; exact Hc).
  pose proof (byteZ_range c) as Hc0.
  destruct (utf8.first (byteZ c)) as [[[sz lo] hi]|] eqn:Hfirst;
    [|vm_compute; discriminate].
  destruct (len (c :: s) <? sz); [vm_compute; discriminate|].
  destruct s as [|c1 s]; [vm_compute; discriminate|].
  pose proof (byteZ_range c1) as Hc1.
  destruct ((byteZ c1 <? lo) || (hi <? byteZ c1)) eqn:Hacc;
    [vm_compute; discriminate|].
  apply orb_false_iff in Hacc as [Hlo Hhi].
  apply Z.ltb_ge in Hlo. apply Z.ltb_ge in Hhi.
  change 31 with (Z.ones 5). change 63 with (Z.ones 6).
  change 15 with (Z.ones 4). change 7 with (Z.ones 3).
  assert (Hshape :
    (sz = 2 /\ 2 <= byteZ c mod 2 ^ 5) \/
    (sz = 3 /\ (1 <= byteZ c mod 2 ^ 4 \/ 32 <= byteZ c1 mod 2 ^ 6)) \/
    (sz = 4 /\ (1 <= byteZ c mod 2 ^ 3 \/ 16 <= byteZ c1 mod 2 ^ 6))).
  { unfold utf8.first in Hfirst.
    repeat match type of Hfirst with
           | (if ?b then _ else _) = _ =>
               let Hb := fresh "Hb" in destruct b eqn:Hb
           end; try discriminate; injection Hfirst as <- <- <-;
    change (2 ^ 5) with 32; change (2 ^ 4) with 16; change (2 ^ 3) with 8;
    change (2 ^ 6) with 64;
    repeat match goal with
           | H : _ && _ = true |- _ => apply andb_true_iff in H as [? ?]
           | H : (_ <=? _) = true |- _ => apply Z.leb_le in H
           | H : (_ =? _) = true |- _ => apply Z.eqb_eq in H
           | H : _ = false |- _ => clear H
           end;
    Z.div_mod_to_equations; lia. }
  destruct Hshape as [[-> H2]|[[-> H3]|[-> H4]]]; simpl (_ <=? _); cbv iota.
  - simpl fst. etransitivity; [|apply lor_lower_l; apply land_ones_nonneg; lia].
    rewrite shiftl_land_ones by lia. change (2 ^ 6) with 64. lia.
  - destruct s as [|c2 s]; [vm_compute; discriminate|].
    destruct (negb (utf8.continuation (byteZ c2))); [vm_compute; discriminate|].
    simpl fst.
    etransitivity; [|apply lor_lower_l; apply land_ones_nonneg; lia].
    rewrite !shiftl_land_ones by lia.
    assert (0 <= byteZ c mod 2 ^ 4) by (apply Z.mod_pos_bound; reflexivity).
    assert (0 <= byteZ c1 mod 2 ^ 6) by (apply Z.mod_pos_bound; reflexivity).
    destruct H3 as [H3|H3].
    + etransitivity; [|apply lor_lower_l; lia].
      change (2 ^ 12) with 4096. lia.
    + etransitivity; [|apply lor_lower_r; lia].
      change (2 ^ 6) with 64 in *. lia.
  - destruct s as [|c2 s]; [vm_compute; discriminate|].
    destruct (negb (utf8.continuation (byteZ c2))); [vm_compute; discriminate|].
    destruct s as [|c3 s]; [vm_compute; discriminate|].
    destruct (negb (utf8.continuation (byteZ c3))); [vm_compute; discriminate|].
    simpl fst.
    etransitivity; [|apply lor_lower_l; apply land_ones_nonneg; lia].
    etransitivity;
      [|apply lor_lower_l; rewrite shiftl_land_ones by lia;
        apply Z.mul_nonneg_nonneg; [apply Z.mod_pos_bound; reflexivity|lia]].
    rewrite !shiftl_land_ones by lia.
    assert (0 <= byteZ c mod 2 ^ 3) by (apply Z.mod_pos_bound; reflexivity).
    assert (0 <= byteZ c1 mod 2 ^ 6) by (apply Z.mod_pos_bound; reflexivity).
    destruct H4 as [H4|H4].
    + etransitivity; [|apply lor_lower_l; lia].
      change (2 ^ 18) with 262144. lia.
    + etransitivity; [|apply lor_lower_r; lia].
      change (2 ^ 6) with 64 in *. change (2 ^ 12) with 4096. lia.
Qed.

End RuneFacts.

(** ** The key-unquoting rule of the sanitizer *)

Module KeyFacts.

Lemma rangeFrom_cons (i : Z) (c : ascii) (s : list ascii) :
  rangeFrom i 0 (c :: s) =
  (i, fst (utf8.DecodeRuneInString (c :: s)))
    :: rangeFrom (i + 1) (snd (utf8.DecodeRuneInString (c :: s)) - 1) s.
Proof.
  change (rangeFrom i 0 (c :: s))
    with (let (r, size) := utf8.DecodeRuneInString (c :: s) in
          (i, r) :: rangeFrom (i + 1) (size - 1) s).
  destruct (utf8.DecodeRuneInString (c :: s)); reflexivity.
Qed.

Lemma DecodeRune_ascii (c : ascii) (s : list ascii) :
  byteZ c < 0x80 -> utf8.DecodeRuneInString (c :: s) = (byteZ c, 1%nat).
Proof.
  intros Hc. unfold utf8.DecodeRuneInString, utf8.RuneSelf.
  replace (byteZ c <? 128) with true by (symmetry; apply Z.ltb_lt; exact Hc).
  reflexivity.
Qed.

Lemma IndexRune_ascii (c : ascii) :
  byteZ c < 0x80 ->
  strings_rune.IndexRune safeChars (byteZ c) = strings.IndexByte safeChars c.
Proof.
  intros Hc. unfold strings_rune.IndexRune, utf8.RuneSelf.
  pose proof (RuneFacts.byteZ_range c).
  replace (0 <=? byteZ c) with true by (symmetry; apply Z.leb_le; lia).
  replace (byteZ c <? 128) with true by (symmetry; apply Z.ltb_lt; exact Hc).
  simpl andb. cbv iota. rewrite RuneFacts.byteOf_byteZ. reflexivity.
Qed.

Lemma allSafe_cons (i c : Z) (rest : list (Z * Z)) :
  allSafe ((i, c) :: rest) =
  if strings_rune.IndexRune safeChars c =? -1 then false else allSafe rest.
Proof. reflexivity. Qed.

(** The loop over the runes accepts a text exactly when each of its bytes is
    one of [safeChars]. *)
Lemma allSafe_rangeFrom (v : list ascii) (i : Z) :
  allSafe (rangeFrom i 0 v) = true <-> Forall (fun c => In c safeChars) v.
Proof.
  revert i. induction v as [|c v IH]; intros i.
  - split; [constructor|reflexivity].
  - rewrite rangeFrom_cons, allSafe_cons.
    destruct (Z.lt_ge_cases (byteZ c) 0x80) as [Hc|Hc].
    + rewrite (DecodeRune_ascii c v Hc). cbn [fst snd].
      rewrite (IndexRune_ascii c Hc).
      destruct (Z.eqb_spec (strings.IndexByte safeChars c) (-1)) as [Heq|Hne].
      * split; [discriminate|]. intros HF. inversion HF as [|? ? Hin _]; subst.
        apply RuneFacts.IndexByte_In in Hin. contradiction.
      * change (1 - 1)%nat with 0%nat. rewrite IH. split.
        -- intros HF. constructor; [|exact HF].
           apply RuneFacts.IndexByte_In. exact Hne.
        -- intros HF. inversion HF; assumption.
    + rewrite (RuneFacts.IndexRune_nonascii _ (RuneFacts.DecodeRune_nonascii c v Hc)).
      change (-1 =? -1) with true. cbv iota. split; [discriminate|]. intros HF.
      inversion HF as [|? ? Hin _]; subst.
      apply RuneFacts.safeChars_ascii in Hin. lia.
Qed.

Lemma allSafe_spec (v : list ascii) :
  allSafe (rangeString v) = true <-> Forall (fun c => In c safeChars) v.
Proof. apply allSafe_rangeFrom. Qed.

Lemma allSafe_unsafe (v : list ascii) :
  Exists (fun c => ~ In c safeChars) v -> allSafe (rangeString v) = false.
Proof.
  intros Hex. apply not_true_iff_false. intros Hsafe.
  apply allSafe_spec in Hsafe. apply Exists_exists in Hex as (c & Hc & Hnot).
  eapply Forall_forall in Hsafe; [|exact Hc]. exact (Hnot Hsafe).
Qed.

Lemma len_app_one {A} (l : list A) (x : A) : len (l ++ [x]) = len l + 1.
Proof. unfold len. rewrite length_app. simpl. lia. Qed.

(** The key loop on a text between double quotes. *)
Lemma unquoteKey_quoted (k : ast.ObjectKey) (v : list ascii) out :
  token.Text (ast.Token k) = dquote :: v ++ [dquote] ->
  unquoteKey k out =
  Done (if allSafe (rangeString v)
        then ast.mkObjectKey (token.setText (ast.Token k) v) else k) out.
Proof.
  intros Htext. unfold unquoteKey. rewrite Htext.
  assert (Hlen : len (dquote :: v ++ [dquote]) = len v + 2).
  { unfold len. simpl. rewrite length_app. simpl. lia. }
  assert (Hlast : goIndex (dquote :: v ++ [dquote]) (len v + 2 - 1) = inr dquote).
  { unfold goIndex. rewrite Hlen.
    replace (0 <=? len v + 2 - 1) with true by (symmetry; apply Z.leb_le; unfold len; lia).
    replace (len v + 2 - 1 <? len v + 2) with true by (symmetry; apply Z.ltb_lt; lia).
    simpl andb. cbv iota.
    replace (Z.to_nat (len v + 2 - 1)) with (S (length v)) by (unfold len; lia).
    simpl. rewrite list_lookup_middle by reflexivity. reflexivity. }
  assert (Hslice : goSlice (dquote :: v ++ [dquote]) 1 (len v + 2 - 1) = inr v).
  { unfold goSlice. rewrite Hlen.
    replace (1 <=? len v + 2 - 1) with true by (symmetry; apply Z.leb_le; unfold len; lia).
    replace (len v + 2 - 1 <=? len v + 2) with true by (symmetry; apply Z.leb_le; lia).
    simpl andb. cbv iota.
    replace (Z.to_nat (len v + 2 - 1 - 1)) with (length v) by (unfold len; lia).
    simpl. rewrite drop_0, take_app_length. reflexivity. }
  rewrite Hlen. unfold bind, check.
  change (goIndex (dquote :: v ++ [dquote]) 0) with (@inr panic _ dquote).
  cbv iota. rewrite Ascii.eqb_refl. simpl negb. cbv iota.
  rewrite Hlast. cbv iota. rewrite Ascii.eqb_refl. simpl negb. cbv iota.
  rewrite Hslice. cbv iota.
  destruct (allSafe (rangeString v)); reflexivity.
Qed.

Lemma visitKeys_later (keys : list ast.ObjectKey) (i : Z) out :
  0 < i -> visitKeys i keys out = Done keys out.
Proof.
  revert i. induction keys as [|k keys IH]; intros i Hi; [reflexivity|].
  simpl. unfold bind.
  replace (i =? 0) with false by (symmetry; apply Z.eqb_neq; lia).
  unfold ret at 1. rewrite IH by lia. reflexivity.
Qed.

Lemma visitKeys_first (k : ast.ObjectKey) (rest : list ast.ObjectKey) out :
  visitKeys 0 (k :: rest) out =
  match unquoteKey k out with
  | Done k' out' => Done (k' :: rest) out'
  | Panicked p out' => Panicked p out'
  end.
Proof.
  simpl. unfold bind. destruct (unquoteKey k out) as [k' out'|]; [|reflexivity].
  rewrite visitKeys_later by lia. reflexivity.
Qed.

End KeyFacts.

Module AlphabetFacts.

Lemma safeChars_length : length safeChars = 64%nat.
Proof. reflexivity. Qed.

Lemma safeChars_NoDup : NoDup safeChars.
Proof. apply (bool_decide_eq_true (NoDup safeChars)). vm_compute. reflexivity. Qed.

(** [safeChars] is the alphabet of the specification. *)
Lemma safeChars_alphabet (c : ascii) : In c safeChars <-> inAlphabet c.
Proof.
  split.
  - intros Hin. unfold inAlphabet.
    vm_compute in Hin.
    repeat (destruct Hin as [<-|Hin];
            [vm_compute; intuition (discriminate || reflexivity)|]).
    destruct Hin.
  - unfold inAlphabet. intros H.
    assert (Hdec : bool_decide (c ∈ safeChars) = true).
    { destruct c as [[] [] [] [] [] [] [] []]; vm_compute in H |- *;
        try reflexivity; exfalso;
        repeat (destruct H as [H|H]); try discriminate;
        destruct H as [H1 H2];
        first [apply H1; reflexivity | apply H2; reflexivity]. }
    apply list_elem_of_In. apply bool_decide_eq_true in Hdec. exact Hdec.
Qed.

Lemma Forall_alphabet (v : list ascii) :
  Forall inAlphabet v <-> Forall (fun c => In c safeChars) v.
Proof.
  split; intros H; (eapply Forall_impl; [exact H|]); intros c;
    apply safeChars_alphabet.
Qed.

End AlphabetFacts.

(** ** The sanitizer *)

Section SanitizerFacts.
Context `{E : Externals}.

Lemma bind_Done {A B} (m : M A) (f : A -> M B) out b out' :
  bind m f out = Done b out' ->
  exists a o1, m out = Done a o1 /\ f a o1 = Done b out'.
Proof.
  unfold bind. destruct (m out) as [a o1|]; [|discriminate]. eauto.
Qed.

Lemma visitObjectItem_unfold (o : ast.ObjectItem) :
  visitObjectItem o =
  (do keys' <- visitKeys 0 (ast.Keys o);
   do val' <-
     match ast.Val o with
     | ast.LiteralType t => do t' <- heredoc t; ret (ast.LiteralType t')
     | _ => ret (ast.Val o)
     end;
   let assign' := token.setLine (ast.Assign o) 1 in
   do val'' <-
     match ast.Val o with
     | ast.LiteralType _ => ret val'
     | _ => visit (ast.Val o)
     end;
   ret (ast.mkObjectItem keys' assign' val'')).
Proof. destruct o. reflexivity. Qed.

(** What the key loop leaves is what the visited item carries. *)
Lemma visitObjectItem_keys (o o' : ast.ObjectItem) out out' keys' o1 :
  visitKeys 0 (ast.Keys o) out = Done keys' o1 ->
  visitObjectItem o out = Done o' out' -> ast.Keys o' = keys'.
Proof.
  intros Hk. rewrite visitObjectItem_unfold. intros H.
  apply bind_Done in H as (ks & o2 & Hks & H). rewrite Hk in Hks.
  injection Hks as <- <-.
  apply bind_Done in H as (v1 & o3 & _ & H).
  apply bind_Done in H as (v2 & o4 & _ & H).
  unfold ret in H. injection H as <- _. reflexivity.
Qed.

(** C2: of the keys of an object-item only the first is considered.  When
    its token text is a double-quoted string whose whole content is made of
    characters of the 64-character alphabet (a-z, A-Z, 0-9, "-", "_"), the
    quotes are stripped from the token text; when the content has any
    character outside the alphabet the token text stays as it is.  The other
    fields of the token and the other keys are untouched. *)
Theorem visitObjectItem_unquotes_first_key
  (o : ast.ObjectItem) (k : ast.ObjectKey) (rest : list ast.ObjectKey)
  (v : list ascii) :
  ast.Keys o = k :: rest ->
  token.Text (ast.Token k) = dquote :: v ++ [dquote] ->
  exists k' : ast.ObjectKey,
    (forall out, visitKeys 0 (ast.Keys o) out = Done (k' :: rest) out) /\
    (forall out o' out',
        visitObjectItem o out = Done o' out' -> ast.Keys o' = k' :: rest) /\
    token.Type_ (ast.Token k') = token.Type_ (ast.Token k) /\
    token.TokPos (ast.Token k') = token.TokPos (ast.Token k) /\
    token.JSON (ast.Token k') = token.JSON (ast.Token k) /\
    (Forall inAlphabet v -> token.Text (ast.Token k') = v) /\
    (Exists (fun c => ~ inAlphabet c) v ->
     token.Text (ast.Token k') = dquote :: v ++ [dquote]).
Proof.
  intros Hkeys Htext.
  set (k' := if allSafe (rangeString v)
             then ast.mkObjectKey (token.setText (ast.Token k) v) else k).
  assert (Hloop : forall out, visitKeys 0 (ast.Keys o) out = Done (k' :: rest) out).
  { intros out. rewrite Hkeys, KeyFacts.visitKeys_first.
    rewrite (KeyFacts.unquoteKey_quoted k v out Htext). reflexivity. }
  exists k'. split; [exact Hloop|]. split.
  { intros out o' out' Hv. eapply visitObjectItem_keys; [apply Hloop|exact Hv]. }
  subst k'. destruct (allSafe (rangeString v)) eqn:Hsafe.
  - repeat split; try reflexivity. intros Hex. exfalso.
    apply KeyFacts.allSafe_spec in Hsafe.
    apply Exists_exists in Hex as (c & Hc & Hnot).
    eapply Forall_forall in Hsafe; [|exact Hc].
    apply Hnot. apply AlphabetFacts.safeChars_alphabet. exact Hsafe.
  - repeat split; try reflexivity; [|intros _; exact Htext].
    intros Hall. apply AlphabetFacts.Forall_alphabet in Hall.
    apply KeyFacts.allSafe_spec in Hall. congruence.
Qed.

(** C10: a first key whose token text is exactly the two double quotes (the
    empty string in quotes) passes the alphabet check, which holds vacuously
    for empty content; the sanitizer rewrites the key's token text to the
    empty string. *)
Theorem visitObjectItem_empty_key
  (o : ast.ObjectItem) (k : ast.ObjectKey) (rest : list ast.ObjectKey) :
  ast.Keys o = k :: rest ->
  token.Text (ast.Token k) = [dquote; dquote] ->
  allSafe (rangeString []) = true /\
  (forall out,
      visitKeys 0 (ast.Keys o) out
      = Done (ast.mkObjectKey (token.setText (ast.Token k) []) :: rest) out) /\
  (forall out o' out',
      visitObjectItem o out = Done o' out' ->
      exists k', ast.Keys o' = k' :: rest /\ token.Text (ast.Token k') = []).
Proof.
  intros Hkeys Htext.
  assert (Hloop : forall out,
             visitKeys 0 (ast.Keys o) out
             = Done (ast.mkObjectKey (token.setText (ast.Token k) []) :: rest) out).
  { intros out. rewrite Hkeys, KeyFacts.visitKeys_first.
    rewrite (KeyFacts.unquoteKey_quoted k [] out Htext). reflexivity. }
  split; [reflexivity|]. split; [exact Hloop|].
  intros out o' out' Hv. eexists. split.
  - eapply visitObjectItem_keys; [apply Hloop|exact Hv].
  - reflexivity.
Qed.

End SanitizerFacts.

Lemma visitObjectItem_unquotes_first_key_witness :
  ast.Keys Sample.item = [ast.mkObjectKey (Sample.stringToken (lit "name"))] /\
  token.Text (Sample.stringToken (lit "name")) = dquote :: lit "name" ++ [dquote] /\
  exists k' : ast.ObjectKey,
    (forall out, visitKeys 0 (ast.Keys Sample.item) out = Done [k'] out) /\
    (forall out o' out',
        @visitObjectItem Sample.externals Sample.item out = Done o' out' ->
        ast.Keys o' = [k']) /\
    token.Type_ (ast.Token k') = token.STRING /\
    token.TokPos (ast.Token k') = Sample.noPos /\
    token.JSON (ast.Token k') = true /\
    (Forall inAlphabet (lit "name") -> token.Text (ast.Token k') = lit "name") /\
    (Exists (fun c => ~ inAlphabet c) (lit "name") ->
     token.Text (ast.Token k') = dquote :: lit "name" ++ [dquote]).
Proof.
  split; [reflexivity|]. split; [reflexivity|].
  apply (@visitObjectItem_unquotes_first_key Sample.externals Sample.item
           (ast.mkObjectKey (Sample.stringToken (lit "name"))) [] (lit "name"));
    reflexivity.
Defined.

Lemma visitObjectItem_empty_key_witness :
  ast.Keys Sample.emptyKeyItem = [ast.mkObjectKey (Sample.stringToken [])] /\
  token.Text (Sample.stringToken []) = [dquote; dquote] /\
  allSafe (rangeString []) = true /\
  (forall out,
      visitKeys 0 (ast.Keys Sample.emptyKeyItem) out
      = Done [ast.mkObjectKey (token.setText (Sample.stringToken []) [])] out) /\
  (forall out o' out',
      @visitObjectItem Sample.externals Sample.emptyKeyItem out = Done o' out' ->
      exists k', ast.Keys o' = [k'] /\ token.Text (ast.Token k') = []).
Proof.
  split; [reflexivity|]. split; [reflexivity|].
  apply (@visitObjectItem_empty_key Sample.externals Sample.emptyKeyItem
           (ast.mkObjectKey (Sample.stringToken [])) []); reflexivity.
Defined.

(** ** Heredoc recovery *)

Module SplitFacts.
Import strings.

Lemma splitFrom_cons (sep : list ascii) (c : ascii) (s : list ascii) :
  splitFrom sep 0 (c :: s) =
  if HasPrefix (c :: s) sep
  then [] :: splitFrom sep (length sep - 1) s
  else consHead c (splitFrom sep 0 s).
Proof. reflexivity. Qed.

(** Splitting on the newline byte. *)
Lemma Split_newline_cons (c : ascii) (s : list ascii) :
  Split (c :: s) [newline] =
  if Ascii.eqb c newline then [] :: Split s [newline]
  else consHead c (Split s [newline]).
Proof.
  unfold Split. rewrite splitFrom_cons.
  change (HasPrefix (c :: s) [newline])
    with (Ascii.eqb c newline && HasPrefix s []).
  rewrite StringFacts.HasPrefix_nil_r, andb_true_r. reflexivity.
Qed.

Lemma Split_nonempty (s : list ascii) : Split s [newline] <> [].
Proof.
  destruct s as [|c s]; [discriminate|]. rewrite Split_newline_cons.
  destruct (Ascii.eqb c newline); [discriminate|].
  destruct (Split s [newline]); discriminate.
Qed.

(** A text without a newline is a single line. *)
Lemma Split_single (s : list ascii) :
  ~ In newline s -> Split s [newline] = [s].
Proof.
  induction s as [|c s IH]; intros Hs; [reflexivity|].
  rewrite Split_newline_cons.
  destruct (Ascii.eqb c newline) eqn:Hc.
  - apply Ascii.eqb_eq in Hc. exfalso. apply Hs. left. exact Hc.
  - rewrite IH; [reflexivity|]. intros Hin. apply Hs. right. exact Hin.
Qed.

(** A text with a newline has at least two lines. *)
Lemma Split_two_lines (s : list ascii) :
  In newline s -> (2 <= length (Split s [newline]))%nat.
Proof.
  induction s as [|c s IH]; intros Hs; [destruct Hs|].
  rewrite Split_newline_cons.
  destruct (Ascii.eqb c newline) eqn:Hc.
  - pose proof (Split_nonempty s). destruct (Split s [newline]); [contradiction|].
    simpl. lia.
  - apply Ascii.eqb_neq in Hc. destruct Hs as [Heq|Hin]; [congruence|].
    specialize (IH Hin). destruct (Split s [newline]); simpl in *; lia.
Qed.

Lemma Join_cons (e : list ascii) (rest : list (list ascii)) (sep : list ascii) :
  rest <> [] -> Join (e :: rest) sep = e ++ sep ++ Join rest sep.
Proof. destruct rest; [contradiction|reflexivity]. Qed.

Lemma Join_snoc (l : list (list ascii)) (x sep : list ascii) :
  l <> [] -> Join (l ++ [x]) sep = Join l sep ++ sep ++ x.
Proof.
  induction l as [|h l IH]; intros Hne; [contradiction|].
  destruct l as [|h' l]; [reflexivity|].
  change ((h :: h' :: l) ++ [x]) with (h :: (h' :: l) ++ [x]).
  rewrite Join_cons by (simpl; discriminate).
  rewrite IH by discriminate.
  rewrite (Join_cons h (h' :: l)) by discriminate.
  rewrite <- !app_assoc. reflexivity.
Qed.

(** Joining the lines of a text gives the text back. *)
Lemma Join_Split (s : list ascii) : Join (Split s [newline]) [newline] = s.
Proof.
  induction s as [|c s IH]; [reflexivity|].
  rewrite Split_newline_cons. pose proof (Split_nonempty s) as Hne.
  destruct (Ascii.eqb c newline) eqn:Hc.
  - apply Ascii.eqb_eq in Hc. subst c.
    rewrite Join_cons by exact Hne. rewrite IH. reflexivity.
  - destruct (Split s [newline]) as [|h t] eqn:Hs; [contradiction|].
    simpl consHead. destruct t as [|h' t].
    + simpl in IH |- *. rewrite IH. reflexivity.
    + rewrite Join_cons by discriminate. rewrite Join_cons in IH by discriminate.
      simpl. rewrite <- IH. reflexivity.
Qed.

End SplitFacts.

Section HeredocFacts.
Context `{E : Externals}.

Lemma goSlice_tail {A} (l : list A) :
  (1 <= length l)%nat -> goSlice l 1 (len l) = inr (drop 1 l).
Proof.
  intros Hl. unfold goSlice, len.
  replace (1 <=? Z.of_nat (length l)) with true by (symmetry; apply Z.leb_le; lia).
  rewrite Z.leb_refl. simpl andb. cbv iota.
  rewrite take_ge; [reflexivity|]. rewrite length_drop. lia.
Qed.

Lemma goSlice_init {A} (l : list A) :
  (1 <= length l)%nat ->
  goSlice l 0 (len l - 1) = inr (take (length l - 1) l).
Proof.
  intros Hl. unfold goSlice, len.
  replace (0 <=? Z.of_nat (length l) - 1) with true by (symmetry; apply Z.leb_le; lia).
  replace (Z.of_nat (length l) - 1 <=? Z.of_nat (length l)) with true
    by (symmetry; apply Z.leb_le; lia).
  simpl andb. cbv iota. rewrite drop_0.
  replace (Z.to_nat (Z.of_nat (length l) - 1 - 0)) with (length l - 1)%nat by lia.
  reflexivity.
Qed.


Lemma heredoc_unfold (t : token.Token) :
  strings.HasPrefix (token.Text t) (dquote :: lit "<<") = true ->
  heredoc t =
  (let body := heredocBody (token.Text t) in
   let t1 := token.mkToken 10 (token.TokPos t) body (token.JSON t) in
   let lines := strings.Split body [newline] in
   do inner <- check (goSlice lines 1 (len lines - 1));
   match json_Unmarshal
           (strings.Replace (strings.Join inner [newline])
              [bslash; dquote] [dquote]) with
   | Ok tmp =>
       match json_MarshalIndent tmp [] (lit "  ") with
       | Ok dataJsonBytes =>
           do line0 <- check (goIndex lines 0);
           do lineN <- check (goIndex lines (len lines - 1));
           ret (token.setText t1
                  (strings.Join
                     (([line0] ++ strings.Split dataJsonBytes [newline])
                        ++ [lineN]) [newline]))
       | Err _ => ret t1
       end
   | Err _ => ret t1
   end).
Proof.
  intros Hp. unfold heredoc. rewrite Hp.
  pose proof (StringFacts.HasPrefix_length _ _ Hp) as Hlen. simpl in Hlen.
  rewrite goSlice_tail by lia.
  assert (Hd : (1 <= length (drop 1 (token.Text t)))%nat)
    by (rewrite length_drop; lia).
  unfold bind at 1. unfold check at 1.
  unfold bind at 1. unfold check at 1. rewrite (goSlice_init _ Hd).
  unfold heredocBody. rewrite length_drop.
  replace (length (token.Text t) - 1 - 1)%nat
    with (length (token.Text t) - 2)%nat by lia.
  reflexivity.
Qed.

(** On a heredoc literal whose body has no newline the slice
    [lines[1:len(lines)-1]] is [lines[1:0]]: the program panics. *)
Lemma heredoc_single_line_panics (t : token.Token) out :
  strings.HasPrefix (token.Text t) (dquote :: lit "<<") = true ->
  ~ In newline (heredocBody (token.Text t)) ->
  heredoc t out = Panicked (SliceBoundsOutOfRange 1 0) out.
Proof.
  intros Hp Hnl. rewrite (heredoc_unfold t Hp). cbv zeta.
  rewrite (SplitFacts.Split_single _ Hnl). reflexivity.
Qed.

(** On a heredoc literal whose body has a first line, inner lines and a
    last line, the token becomes a raw heredoc; its text is the first line,
    the re-indented JSON and the last line when the inner lines decode, and
    the body as it is otherwise. *)
Lemma heredoc_rewrite (t : token.Token) out
  (line0 lineN : list ascii) (inner : list (list ascii)) :
  strings.HasPrefix (token.Text t) (dquote :: lit "<<") = true ->
  strings.Split (heredocBody (token.Text t)) [newline]
    = line0 :: inner ++ [lineN] ->
  heredoc t out =
  Done (token.mkToken 10 (token.TokPos t)
          match json_Unmarshal
                  (strings.Replace (strings.Join inner [newline])
                     [bslash; dquote] [dquote]) with
          | Ok tmp =>
              match json_MarshalIndent tmp [] (lit "  ") with
              | Ok dataJsonBytes =>
                  line0 ++ [newline] ++ dataJsonBytes ++ [newline] ++ lineN
              | Err _ => heredocBody (token.Text t)
              end
          | Err _ => heredocBody (token.Text t)
          end
          (token.JSON t)) out.
Proof.
  intros Hp Hlines. rewrite (heredoc_unfold t Hp). cbv zeta. rewrite Hlines.
  assert (Hlen : len (line0 :: inner ++ [lineN]) = len inner + 2).
  { unfold len. simpl. rewrite length_app. simpl. lia. }
  assert (Hin : goSlice (line0 :: inner ++ [lineN]) 1 (len inner + 2 - 1) = inr inner).
  { unfold goSlice. rewrite Hlen.
    replace (1 <=? len inner + 2 - 1) with true by (symmetry; apply Z.leb_le; unfold len; lia).
    replace (len inner + 2 - 1 <=? len inner + 2) with true by (symmetry; apply Z.leb_le; lia).
    simpl andb. cbv iota.
    replace (Z.to_nat (len inner + 2 - 1 - 1)) with (length inner) by (unfold len; lia).
    simpl. rewrite drop_0, take_app_length. reflexivity. }
  assert (Hlast : goIndex (line0 :: inner ++ [lineN]) (len inner + 2 - 1) = inr lineN).
  { unfold goIndex. rewrite Hlen.
    replace (0 <=? len inner + 2 - 1) with true by (symmetry; apply Z.leb_le; unfold len; lia).
    replace (len inner + 2 - 1 <? len inner + 2) with true by (symmetry; apply Z.ltb_lt; lia).
    simpl andb. cbv iota.
    replace (Z.to_nat (len inner + 2 - 1)) with (S (length inner)) by (unfold len; lia).
    simpl. rewrite list_lookup_middle by reflexivity. reflexivity. }
  rewrite Hlen. unfold bind at 1. unfold check at 1. rewrite Hin.
  destruct (json_Unmarshal _) as [tmp|err]; [|reflexivity].
  destruct (json_MarshalIndent tmp _ _) as [bytes|err]; [|reflexivity].
  unfold bind, check. rewrite Hlast.
  change (goIndex (line0 :: inner ++ [lineN]) 0) with (@inr panic _ line0).
  cbv iota. unfold ret, token.setText. cbn [token.Type_ token.TokPos token.JSON].
  do 2 f_equal.
  pose proof (SplitFacts.Split_nonempty bytes) as Hne.
  change ([line0] ++ strings.Split bytes [newline])
    with (line0 :: strings.Split bytes [newline]).
  rewrite <- app_comm_cons.
  rewrite SplitFacts.Join_cons by (destruct (strings.Split bytes [newline]); discriminate).
  rewrite SplitFacts.Join_snoc by exact Hne.
  rewrite SplitFacts.Join_Split. reflexivity.
Qed.

Lemma heredoc_EOF_panics (out : list (list ascii)) :
  heredoc (Sample.stringToken (lit "<<EOF")) out
  = Panicked (SliceBoundsOutOfRange 1 0) out.
Proof.
  apply heredoc_single_line_panics; [reflexivity|].
  vm_compute. intuition discriminate.
Qed.

Lemma visitObjectItem_EOF_panics (out : list (list ascii)) :
  visitObjectItem Sample.singleLineItem out
  = Panicked (SliceBoundsOutOfRange 1 0) out.
Proof.
  rewrite visitObjectItem_unfold. unfold Sample.singleLineItem.
  cbn [ast.Keys ast.Val ast.Assign].
  unfold bind at 1. rewrite KeyFacts.visitKeys_first.
  rewrite (KeyFacts.unquoteKey_quoted _ (lit "policy")) by reflexivity.
  unfold bind at 1. unfold bind at 1. rewrite heredoc_EOF_panics. reflexivity.
Qed.

(** C3 (the code departs from the specification): the value ["<<EOF"]
    starts with the three characters that mark a heredoc and has a single
    line.  The specification has its token rewritten to the text <<EOF (its
    inner content is empty and is no JSON object) without an error; the code
    takes the slice [lines[1:len(lines)-1]] of a one-line list and panics. *)
Theorem visitObjectItem_single_line_heredoc_panics (out : list (list ascii)) :
  strings.HasPrefix (token.Text (Sample.stringToken (lit "<<EOF")))
    (dquote :: lit "<<") = true /\
  heredoc (Sample.stringToken (lit "<<EOF")) out
    = Panicked (SliceBoundsOutOfRange 1 0) out /\
  visitObjectItem Sample.singleLineItem out
    = Panicked (SliceBoundsOutOfRange 1 0) out.
Proof.
  split; [reflexivity|]. split.
  - apply heredoc_EOF_panics.
  - apply visitObjectItem_EOF_panics.
Qed.

(** C7 (the code departs from the specification): the traversal does not
    complete on every tree.  On the tree of the JSON text
    [{"policy": "<<EOF"}] the visit of the item panics with a slice-bounds
    error, and so does the printer that starts with it. *)
Theorem visit_panics_on_single_line_heredoc (out : list (list ascii)) :
  visit Sample.singleLineFile out = Panicked (SliceBoundsOutOfRange 1 0) out /\
  hclPrint Sample.singleLineFile out = Panicked (SliceBoundsOutOfRange 1 0) out.
Proof.
  assert (Hv : visit Sample.singleLineFile out
               = Panicked (SliceBoundsOutOfRange 1 0) out).
  { unfold Sample.singleLineFile.
    cbn -[visitObjectItem Sample.singleLineItem]. unfold bind.
    rewrite visitObjectItem_EOF_panics. reflexivity. }
  split; [exact Hv|]. unfold hclPrint, bind. rewrite Hv. reflexivity.
Qed.

End HeredocFacts.

(** ** The JSON text handed to the parser *)

Module EscapeFacts.
Import strings.

Lemma HasPrefix_cons_ne (c p : ascii) (s q : list ascii) :
  c <> p -> HasPrefix (c :: s) (p :: q) = false.
Proof.
  intros Hne. simpl. apply Ascii.eqb_neq in Hne. rewrite Hne. reflexivity.
Qed.

Lemma Contains_app_same (u p v : list ascii) : Contains (u ++ p ++ v) p = true.
Proof. apply StringFacts.Contains_spec. eauto. Qed.

Lemma Contains_cons_true (c : ascii) (s p : list ascii) :
  Contains s p = true -> Contains (c :: s) p = true.
Proof. intros H. rewrite StringFacts.Contains_cons, H. apply orb_true_r. Qed.

(** Undoing the escapes of "<" leaves the escapes of ">" in place. *)
Lemma Replace_lt_keeps_gt (s : list ascii) :
  Contains s (bslash :: lit "u003e") = true ->
  Contains (Replace s (bslash :: lit "u003c") (lit "<")) (bslash :: lit "u003e")
  = true.
Proof.
  induction s as [s IH] using StringFacts.length_ind. intros Hs.
  destruct s as [|c s]; [discriminate|].
  destruct (HasPrefix (c :: s) (bslash :: lit "u003c")) eqn:Hp.
  - rewrite StringFacts.Replace_match by (discriminate || exact Hp).
    apply StringFacts.HasPrefix_spec in Hp as [rest Hrest].
    assert (Hlen : (length rest < length (c :: s))%nat).
    { rewrite Hrest, length_app. simpl. lia. }
    rewrite Hrest in Hs |- *.
    change (drop _ _) with rest.
    apply Contains_cons_true. apply IH; [exact Hlen|].
    change ((bslash :: lit "u003c") ++ rest)
      with (bslash :: "u"%char :: "0"%char :: "0"%char :: "3"%char :: "c"%char :: rest) in Hs.
    rewrite StringFacts.Contains_cons in Hs.
    replace (HasPrefix _ _) with false in Hs
      by reflexivity.
    rewrite orb_false_l in Hs.
    repeat (rewrite StringFacts.Contains_cons in Hs;
            rewrite HasPrefix_cons_ne in Hs by discriminate;
            rewrite orb_false_l in Hs).
    exact Hs.
  - rewrite StringFacts.Replace_nomatch by exact Hp.
    rewrite StringFacts.Contains_cons in Hs.
    apply orb_true_iff in Hs as [Hs|Hs];
      [|apply Contains_cons_true; apply IH; [simpl; lia|exact Hs]].
    apply StringFacts.HasPrefix_spec in Hs as [rest Hrest].
    change ((bslash :: lit "u003e") ++ rest)
      with (bslash :: "u"%char :: "0"%char :: "0"%char :: "3"%char :: "e"%char :: rest) in Hrest.
    injection Hrest as -> ->.
    repeat (rewrite StringFacts.Replace_nomatch by (apply HasPrefix_cons_ne; discriminate)).
    apply (Contains_app_same [] (bslash :: lit "u003e")).
Qed.

End EscapeFacts.

(** ** The scan of [strings.Replace] across a text in parts *)

Module ScanFacts.
Import strings.








End ScanFacts.

(** ** Undoing the escapes of the angle brackets *)

Module AngleFacts.
Import strings.






End AngleFacts.


Section ParserInput.
Context `{E : Externals}.

(** C4 (amended): before the JSON text is handed to the structural parser,
    every escape sequence \u003c is replaced by the literal "<", so the
    text the parser receives contains no \u003c.  The escape sequences
    \u003e are not touched at this step: the text contains one exactly when
    the encoded text did. *)
Theorem terraformJson_unescapes_lt (resources : list TerraformResource)
  (provider : gmap (list ascii) (option GoValue)) (text : list ascii) :
  terraformJson resources provider = Ok text ->
  strings.Contains text (bslash :: lit "u003c") = false /\
  exists resourcesByType dataJson,
    groupResources resources ∅ = Ok resourcesByType /\
    json_MarshalIndent
      (<[lit "provider" := Some (boxMap provider)]>
         (<[lit "resource" := Some (boxMapOfMaps resourcesByType)]> ∅))
      [] (lit "  ") = Ok dataJson /\
    text = strings.Replace dataJson (bslash :: lit "u003c") (lit "<") /\
    strings.Contains text (bslash :: lit "u003e")
    = strings.Contains dataJson (bslash :: lit "u003e").
Proof.
  unfold terraformJson.
  destruct (groupResources resources ∅) as [resourcesByType|msg] eqn:Hg;
    [|discriminate].
  destruct (json_MarshalIndent _ _ _) as [dataJson|err] eqn:Hm; [|discriminate].
  intros [= <-]. split.
  - apply StringFacts.Replace_gone; try (vm_compute; discriminate).
    intros c [<-|[]]. vm_compute. intuition discriminate.
  - exists resourcesByType, dataJson. repeat split; try assumption.
    destruct (strings.Contains dataJson (bslash :: lit "u003e")) eqn:Hgt.
    + apply EscapeFacts.Replace_lt_keeps_gt. exact Hgt.
    + apply StringFacts.Replace_keeps_absent; try (vm_compute; discriminate);
        [|exact Hgt].
      intros c [<-|[]]. vm_compute. intuition discriminate.
Qed.

End ParserInput.

(** C4 as the specification states it fails: for the resource [t.n] whose Item is the
    string [a<b>c], the text handed to the parser still holds \u003e. *)
Lemma terraformJson_keeps_gt_escape :
  exists text,
    @terraformJson Sample.externals Sample.resources ∅ = Ok text /\
    strings.Contains text (bslash :: lit "u003e") = true.
Proof.
  eexists. split; [reflexivity|]. vm_compute. reflexivity.
Qed.

Lemma terraformJson_unescapes_lt_witness :
  @terraformJson Sample.externals Sample.resources ∅
  = Ok (strings.Replace Sample.sampleJson (bslash :: lit "u003c") (lit "<")) /\
  strings.Contains
    (strings.Replace Sample.sampleJson (bslash :: lit "u003c") (lit "<"))
    (bslash :: lit "u003c") = false.
Proof.
  split; [reflexivity|].
  apply (@terraformJson_unescapes_lt Sample.externals Sample.resources ∅).
  reflexivity.
Defined.


Module WhitespaceFacts.
Import strings.



Ltac bytes_differ :=
  let H := fresh in intros H; vm_compute in H; discriminate H.

(** The second replacement leaves no closing brace directly followed by
    [resource]. *)
Lemma boundary_gone (a : list ascii) :
  Contains
    (Replace a (lit "}" ++ [newline] ++ lit "resource")
       (lit "}" ++ [newline; newline] ++ lit "resource"))
    (lit "}" ++ [newline] ++ lit "resource") = false.
Proof.
  induction a as [a IH] using StringFacts.length_ind.
  destruct a as [|c a]; [reflexivity|].
  destruct (HasPrefix (c :: a) (lit "}" ++ [newline] ++ lit "resource")) eqn:Hp.
  - rewrite StringFacts.Replace_match by (discriminate || exact Hp).
    set (T := Replace (drop _ _) _ _).
    assert (HT : Contains T (lit "}" ++ [newline] ++ lit "resource") = false).
    { apply IH. apply StringFacts.drop_length_lt. simpl. lia. }
    change ((lit "}" ++ [newline; newline] ++ lit "resource") ++ T)
      with ("}"%char :: newline :: newline :: "r"%char :: "e"%char :: "s"%char
              :: "o"%char :: "u"%char :: "r"%char :: "c"%char :: "e"%char :: T).
    change (lit "}" ++ [newline] ++ lit "resource")
      with ("}"%char :: newline :: lit "resource") in *.
    rewrite StringFacts.Contains_cons.
    replace (HasPrefix _ _) with false by reflexivity.
    rewrite orb_false_l.
    repeat (rewrite StringFacts.Contains_cons;
            rewrite EscapeFacts.HasPrefix_cons_ne by bytes_differ;
            rewrite orb_false_l).
    exact HT.
  - rewrite StringFacts.Replace_nomatch by exact Hp.
    rewrite StringFacts.Contains_cons.
    rewrite (IH a) by (simpl; lia). rewrite orb_false_r.
    apply not_true_iff_false. intros HP.
    change (lit "}" ++ [newline] ++ lit "resource")
      with ("}"%char :: newline :: lit "resource") in *.
    change (lit "}" ++ [newline; newline] ++ lit "resource")
      with ("}"%char :: newline :: newline :: lit "resource") in *.
    change (Ascii.eqb c "}"
            && HasPrefix (Replace a ("}"%char :: newline :: lit "resource")
                            ("}"%char :: newline :: newline :: lit "resource"))
                 (newline :: lit "resource") = true) in HP.
    apply andb_true_iff in HP as [Hc HP].
    apply StringFacts.Replace_HasPrefix_inv in HP; [|discriminate|].
    + change (Ascii.eqb c "}" && HasPrefix a (newline :: lit "resource") = false) in Hp.
      rewrite Hc, HP in Hp. discriminate.
    + vm_compute. intuition discriminate.
Qed.



(** *** Two blocks *)








End WhitespaceFacts.




(** ** When the traversal completes *)

Section Totality.
Context `{E : Externals}.

(** A node of an unrecognized kind is reported on standard output and left
    as it is. *)
Lemma visit_unknown_kind (typeName : list ascii) out :
  visit (ast.OtherNode typeName) out
  = Done (ast.OtherNode typeName)
      (out ++ [lit " unknown type: " ++ typeName ++ [newline]]).
Proof. reflexivity. Qed.

Lemma unquoteKey_completes (k : ast.ObjectKey) out :
  token.Text (ast.Token k) <> [dquote] ->
  exists k', unquoteKey k out = Done k' out.
Proof.
  intros Hk. unfold unquoteKey.
  destruct (token.Text (ast.Token k)) as [|c0 text] eqn:Ht; [eexists; reflexivity|].
  unfold bind, check.
  change (goIndex (c0 :: text) 0) with (@inr panic _ c0). cbv iota.
  destruct (Ascii.eqb c0 dquote) eqn:Hc0; [|eexists; reflexivity].
  simpl negb. cbv iota.
  destruct text as [|c1 text].
  { apply Ascii.eqb_eq in Hc0. subst c0. contradiction. }
  destruct (@exists_last _ (c1 :: text)) as (body & cl & Hbody); [discriminate|].
  rewrite Hbody.
  assert (Hlen : len (c0 :: body ++ [cl]) = len body + 2).
  { unfold len. simpl. rewrite length_app. simpl. lia. }
  rewrite Hlen.
  assert (Hlast : goIndex (c0 :: body ++ [cl]) (len body + 2 - 1) = inr cl).
  { unfold goIndex. rewrite Hlen.
    replace (0 <=? len body + 2 - 1) with true by (symmetry; apply Z.leb_le; unfold len; lia).
    replace (len body + 2 - 1 <? len body + 2) with true by (symmetry; apply Z.ltb_lt; lia).
    simpl andb. cbv iota.
    replace (Z.to_nat (len body + 2 - 1)) with (S (length body)) by (unfold len; lia).
    simpl. rewrite list_lookup_middle by reflexivity. reflexivity. }
  assert (Hslice : goSlice (c0 :: body ++ [cl]) 1 (len body + 2 - 1) = inr body).
  { unfold goSlice. rewrite Hlen.
    replace (1 <=? len body + 2 - 1) with true by (symmetry; apply Z.leb_le; unfold len; lia).
    replace (len body + 2 - 1 <=? len body + 2) with true by (symmetry; apply Z.leb_le; lia).
    simpl andb. cbv iota.
    replace (Z.to_nat (len body + 2 - 1 - 1)) with (length body) by (unfold len; lia).
    simpl. rewrite drop_0, take_app_length. reflexivity. }
  rewrite Hlast. cbv iota.
  destruct (negb (Ascii.eqb cl dquote)); [eexists; reflexivity|].
  rewrite Hslice. cbv iota.
  destruct (allSafe (rangeString body)); eexists; reflexivity.
Qed.

Lemma visitKeys_completes (keys : list ast.ObjectKey) out :
  keysVisitable keys -> exists keys', visitKeys 0 keys out = Done keys' out.
Proof.
  destruct keys as [|k rest]; intros Hk; [eexists; reflexivity|].
  rewrite KeyFacts.visitKeys_first.
  destruct (unquoteKey_completes k out Hk) as [k' ->]. eexists. reflexivity.
Qed.

Lemma heredoc_completes (t : token.Token) out :
  literalVisitable t -> exists t', heredoc t out = Done t' out.
Proof.
  intros Ht.
  destruct (strings.HasPrefix (token.Text t) (dquote :: lit "<<")) eqn:Hp.
  - specialize (Ht Hp). apply SplitFacts.Split_two_lines in Ht.
    destruct (strings.Split (heredocBody (token.Text t)) [newline])
      as [|line0 [|l1 ls]] eqn:Hs; simpl in Ht; try lia.
    destruct (@exists_last _ (l1 :: ls)) as (inner & lineN & Hl); [discriminate|].
    rewrite Hl in Hs. eexists. apply (heredoc_rewrite t out line0 lineN inner Hp Hs).
  - unfold heredoc. rewrite Hp. eexists. reflexivity.
Qed.

Lemma visit_completes (n : ast.Node) :
  visitable n -> forall out, exists n' out', visit n out = Done n' out'
with visitObjectItem_completes (o : ast.ObjectItem) :
  visitableItem o -> forall out, exists o' out', visitObjectItem o out = Done o' out'
with visitObjectList_completes (l : ast.ObjectList) :
  visitableList l -> forall out, exists l' out', visitObjectList l out = Done l' out'.
Proof.
  - intros Hv out. destruct n as [node|l|k|o|tok|ls|l|ty];
      cbn -[visitObjectItem visitObjectList] in Hv |- *; unfold bind.
    + destruct (visit_completes node Hv out) as (n' & out' & ->). eauto.
    + destruct (visitObjectList_completes l Hv out) as (l' & out' & ->).
      unfold ret. eauto.
    + unfold ret. eauto.
    + destruct (visitObjectItem_completes o Hv out) as (o' & out' & ->).
      unfold ret. eauto.
    + unfold ret. eauto.
    + unfold ret. eauto.
    + destruct (visitObjectList_completes l Hv out) as (l' & out' & ->).
      unfold ret. eauto.
    + unfold printf, ret. eauto.
  - intros Hv out. destruct o as [keys assign val]. destruct Hv as [Hk Hval].
    rewrite visitObjectItem_unfold. cbn [ast.Keys ast.Val ast.Assign].
    unfold bind at 1. destruct (visitKeys_completes keys out Hk) as [keys' ->].
    pose proof (visit_completes val) as Hrec.
    destruct val as [node|l|k|o|tok|ls|l|ty].
    all: try (unfold bind at 1; unfold ret at 1;
              unfold bind at 1;
              destruct (Hrec Hval out) as (v' & out' & ->); unfold ret; eauto).
    unfold bind at 1. unfold bind at 1.
    destruct (heredoc_completes tok out Hval) as [t' ->].
    unfold ret, bind. eauto.
  - intros Hv out. destruct l as [items].
    cbn -[visitObjectItem] in Hv |- *.
    match goal with
    | |- context [bind (?loop items)] => set (lp := loop)
    end.
    assert (Hloop : forall out, exists items' out', lp items out = Done items' out').
    { clear out. induction items as [|o rest IH]; intros out.
      - subst lp. unfold ret. eauto.
      - destruct Hv as [Ho Hrest].
        change (lp (o :: rest))
          with (do o' <- visitObjectItem o; do rest' <- lp rest; ret (o' :: rest')).
        unfold bind at 1.
        destruct (visitObjectItem_completes o Ho out) as (o' & out1 & ->).
        unfold bind at 1. destruct (IH Hrest out1) as (r' & out2 & ->).
        unfold ret. eauto. }
    unfold bind. destruct (Hloop out) as (items' & out' & ->). unfold ret. eauto.
Qed.

Lemma unquoteKey_lone_quote (k : ast.ObjectKey) out :
  token.Text (ast.Token k) = [dquote] ->
  unquoteKey k out = Panicked (SliceBoundsOutOfRange 1 0) out.
Proof. intros Hk. unfold unquoteKey. rewrite Hk. reflexivity. Qed.

Lemma visitKeys_Done (keys keys' : list ast.ObjectKey) out out' :
  visitKeys 0 keys out = Done keys' out' -> keysVisitable keys.
Proof.
  destruct keys as [|k rest]; [intros _; exact I|].
  rewrite KeyFacts.visitKeys_first. intros H Hk.
  rewrite (unquoteKey_lone_quote k out Hk) in H. discriminate.
Qed.

Lemma heredoc_Done (t t' : token.Token) out out' :
  heredoc t out = Done t' out' -> literalVisitable t.
Proof.
  intros H Hp.
  destruct (in_dec ascii_dec newline (heredocBody (token.Text t))) as [Hin|Hnot];
    [exact Hin|].
  rewrite (heredoc_single_line_panics t out Hp Hnot) in H. discriminate.
Qed.

Lemma visit_Done (n : ast.Node) :
  forall out n' out', visit n out = Done n' out' -> visitable n
with visitObjectItem_Done (o : ast.ObjectItem) :
  forall out o' out', visitObjectItem o out = Done o' out' -> visitableItem o
with visitObjectList_Done (l : ast.ObjectList) :
  forall out l' out', visitObjectList l out = Done l' out' -> visitableList l.
Proof.
  - intros out n' out' H. destruct n as [node|l|k|o|tok|ls|l|ty];
      cbn -[visitObjectItem visitObjectList] in H |- *; try exact I.
    + apply bind_Done in H as (a & o1 & H & _). eapply visit_Done. exact H.
    + apply bind_Done in H as (a & o1 & H & _).
      eapply visitObjectList_Done. exact H.
    + apply bind_Done in H as (a & o1 & H & _).
      eapply visitObjectItem_Done. exact H.
    + apply bind_Done in H as (a & o1 & H & _).
      eapply visitObjectList_Done. exact H.
  - intros out o' out' H. destruct o as [keys assign val].
    rewrite visitObjectItem_unfold in H. cbn [ast.Keys ast.Val ast.Assign] in H.
    apply bind_Done in H as (keys' & o1 & Hk & H).
    split; [eapply visitKeys_Done; exact Hk|].
    apply bind_Done in H as (v1 & o2 & Hv1 & H).
    apply bind_Done in H as (v2 & o3 & Hv2 & _).
    pose proof (visit_Done val) as Hrec.
    destruct val as [node|l|k|o|tok|ls|l|ty];
      try (unfold ret in Hv1; injection Hv1 as <- <-; eapply Hrec; exact Hv2).
    apply bind_Done in Hv1 as (t' & o4 & Ht & _).
    eapply heredoc_Done. exact Ht.
  - intros out l' out' H. destruct l as [items].
    cbn -[visitObjectItem] in H |- *.
    apply bind_Done in H as (items' & o1 & H & _).
    match type of H with
    | ?loop items out = _ => set (lp := loop) in H
    end.
    revert out items' o1 H. induction items as [|o rest IH]; intros out items' o1 H;
      [exact I|].
    change (lp (o :: rest))
      with (do o' <- visitObjectItem o; do rest' <- lp rest; ret (o' :: rest')) in H.
    apply bind_Done in H as (o' & o2 & Ho & H).
    apply bind_Done in H as (r' & o3 & Hr & _).
    split; [eapply visitObjectItem_Done; exact Ho | eapply IH; exact Hr].
Qed.

(** X1: the traversal completes exactly on the trees in which no first key is a
    lone double quote and no heredoc-like literal value has a single line. *)
Lemma visit_completes_iff (n : ast.Node) out :
  (exists n' out', visit n out = Done n' out') <-> visitable n.
Proof.
  split.
  - intros (n' & out' & H). eapply visit_Done. exact H.
  - intros H. apply visit_completes. exact H.
Qed.

End Totality.

(** * Further properties of the code *)

(** ** Name sanitization *)

(** X8: a sanitized name has no "." and no "/", and each of its bytes is a byte
    of the name or a "-". *)
Theorem TfSanitize_bytes (name : list ascii) (c : ascii) :
  In c (TfSanitize name) ->
  c <> "."%char /\ c <> "/"%char /\ (In c name \/ c = "-"%char).
Proof.
  intros Hin. split; [|split].
  - intros ->. exact (TfSanitize_no_dot name Hin).
  - intros ->. exact (TfSanitize_no_slash name Hin).
  - unfold TfSanitize in Hin.
    apply StringFacts.Replace_In in Hin; [|vm_compute; discriminate].
    destruct Hin as [Hin|Hin].
    + apply StringFacts.Replace_In in Hin; [|vm_compute; discriminate].
      destruct Hin as [Hin|Hin].
      * apply StringFacts.Replace_In in Hin; [|vm_compute; discriminate].
        destruct Hin as [Hin|[]]. left. exact Hin.
      * right. destruct Hin as [<-|[]]. reflexivity.
    + right. destruct Hin as [<-|[<-|[]]]; reflexivity.
Qed.

Lemma TfSanitize_bytes_witness :
  In "-"%char (TfSanitize (lit "a.b")) /\
  "-"%char <> "."%char /\ "-"%char <> "/"%char /\
  (In "-"%char (lit "a.b") \/ "-"%char = "-"%char).
Proof.
  split; [vm_compute; tauto|].
  apply (TfSanitize_bytes (lit "a.b") "-"%char). vm_compute. tauto.
Defined.

(** X9: the names that sanitization leaves as they are are exactly the names
    without "." and without "/". *)
Theorem TfSanitize_fixed_iff (name : list ascii) :
  TfSanitize name = name <-> ~ In "."%char name /\ ~ In "/"%char name.
Proof.
  split.
  - intros Heq. split; rewrite <- Heq;
      [apply TfSanitize_no_dot | apply TfSanitize_no_slash].
  - intros [Hdot Hslash]. unfold TfSanitize.
    rewrite (StringFacts.Replace_absent name (lit "*.") _ "."%char);
      [|simpl; tauto|exact Hdot].
    rewrite (StringFacts.Replace_absent name (lit ".") _ "."%char);
      [|simpl; tauto|exact Hdot].
    apply (StringFacts.Replace_absent name (lit "/") _ "/"%char);
      [simpl; tauto|exact Hslash].
Qed.

(** ** The printer's patches *)

(** X10: the four escaping patches change nothing in a text without a
    backslash. *)
Theorem escaping_patches_need_backslash (s : list ascii) :
  ~ In bslash s -> unescapeAngles (unescapeQuotes s) = s.
Proof.
  intros Hs. unfold unescapeAngles, unescapeQuotes.
  rewrite (StringFacts.Replace_absent s _ _ bslash); [|simpl; tauto|exact Hs].
  rewrite (StringFacts.Replace_absent s _ _ bslash); [|simpl; tauto|exact Hs].
  rewrite (StringFacts.Replace_absent s _ _ bslash); [|simpl; tauto|exact Hs].
  apply (StringFacts.Replace_absent s _ _ bslash); [simpl; tauto|exact Hs].
Qed.

Lemma escaping_patches_need_backslash_witness :
  ~ In bslash (lit "a < b") /\
  unescapeAngles (unescapeQuotes (lit "a < b")) = lit "a < b".
Proof.
  assert (H : ~ In bslash (lit "a < b")) by (vm_compute; intuition discriminate).
  split; [exact H|]. apply (escaping_patches_need_backslash (lit "a < b") H).
Defined.

(** X11: whatever the rendered text, after the whitespace normalization no
    closing brace is followed on the next line by [resource]. *)
Theorem removeExtraWhitespace_separates_resources (s : list ascii) :
  strings.Contains (removeExtraWhitespace s)
    (lit "}" ++ [newline] ++ lit "resource") = false.
Proof. unfold removeExtraWhitespace. apply WhitespaceFacts.boundary_gone. Qed.

(** ** What the traversal changes and what it leaves *)

Section TraversalFacts.
Context `{E : Externals}.

(** The three ways the key rule can go; none depends on the output. *)
Lemma unquoteKey_shape (k : ast.ObjectKey) :
  (forall out, unquoteKey k out = Done k out) \/
  (token.Text (ast.Token k) = [dquote]) \/
  (exists v,
      token.Text (ast.Token k) = dquote :: v ++ [dquote] /\
      allSafe (rangeString v) = true /\
      forall out,
        unquoteKey k out
        = Done (ast.mkObjectKey (token.setText (ast.Token k) v)) out).
Proof.
  destruct (token.Text (ast.Token k)) as [|c0 text] eqn:Ht.
  { left. intros out. unfold unquoteKey. rewrite Ht. reflexivity. }
  destruct (Ascii.eqb c0 dquote) eqn:Hc0.
  2:{ left. intros out. unfold unquoteKey. rewrite Ht. unfold bind, check.
      change (goIndex (c0 :: text) 0) with (@inr panic _ c0). cbv iota.
      rewrite Hc0. reflexivity. }
  apply Ascii.eqb_eq in Hc0. subst c0.
  destruct text as [|c1 text]; [right; left; reflexivity|].
  destruct (@exists_last _ (c1 :: text)) as (v & cl & Hv); [discriminate|].
  rewrite Hv in *. clear Hv.
  destruct (Ascii.eqb cl dquote) eqn:Hcl.
  - apply Ascii.eqb_eq in Hcl. subst cl.
    destruct (allSafe (rangeString v)) eqn:Hsafe.
    + right. right. exists v. split; [reflexivity|]. split; [exact Hsafe|].
      intros out. rewrite (KeyFacts.unquoteKey_quoted k v out Ht), Hsafe.
      reflexivity.
    + left. intros out. rewrite (KeyFacts.unquoteKey_quoted k v out Ht), Hsafe.
      reflexivity.
  - left. intros out. unfold unquoteKey. rewrite Ht. unfold bind, check.
    change (goIndex (dquote :: v ++ [cl]) 0) with (@inr panic _ dquote).
    cbv iota. rewrite Ascii.eqb_refl. simpl negb. cbv iota.
    assert (Hlast : goIndex (dquote :: v ++ [cl]) (len (dquote :: v ++ [cl]) - 1)
                    = inr cl).
    { unfold goIndex, len. simpl length. rewrite length_app. simpl length.
      replace (0 <=? Z.of_nat (S (length v + 1)) - 1) with true
        by (symmetry; apply Z.leb_le; lia).
      replace (Z.of_nat (S (length v + 1)) - 1 <? Z.of_nat (S (length v + 1)))
        with true by (symmetry; apply Z.ltb_lt; lia).
      simpl andb. cbv iota.
      replace (Z.to_nat (Z.of_nat (S (length v + 1)) - 1)) with (S (length v))
        by lia.
      simpl. rewrite list_lookup_middle by reflexivity. reflexivity. }
    rewrite Hlast. cbv iota. rewrite Hcl. reflexivity.
Qed.

(** A key whose text is made of safe characters is left as it is. *)
Lemma unquoteKey_safe_text (k : ast.ObjectKey) out :
  allSafe (rangeString (token.Text (ast.Token k))) = true ->
  unquoteKey k out = Done k out.
Proof.
  intros Hsafe. apply KeyFacts.allSafe_spec in Hsafe. unfold unquoteKey.
  destruct (token.Text (ast.Token k)) as [|c0 text]; [reflexivity|].
  unfold bind, check.
  change (goIndex (c0 :: text) 0) with (@inr panic _ c0). cbv iota.
  inversion Hsafe as [|? ? Hc0 _]; subst.
  destruct (Ascii.eqb c0 dquote) eqn:Hq; [|reflexivity].
  apply Ascii.eqb_eq in Hq. subst c0.
  vm_compute in Hc0. intuition discriminate.
Qed.

Lemma visitKeys_sanitized (keys keys' : list ast.ObjectKey) out out' :
  visitKeys 0 keys out = Done keys' out' ->
  out' = out /\ blankFirstKey keys' = blankFirstKey keys /\
  forall out2, visitKeys 0 keys' out2 = Done keys' out2.
Proof.
  destruct keys as [|k rest].
  { intros [= <- <-]. repeat split. }
  rewrite KeyFacts.visitKeys_first.
  destruct (unquoteKey_shape k) as [Hsame|[Hlone|(v & Ht & Hsafe & Hstrip)]].
  - rewrite Hsame. intros [= <- <-]. repeat split.
    intros out2. rewrite KeyFacts.visitKeys_first, Hsame. reflexivity.
  - rewrite (unquoteKey_lone_quote k out Hlone). discriminate.
  - rewrite Hstrip. intros [= <- <-]. repeat split.
    intros out2. rewrite KeyFacts.visitKeys_first.
    rewrite unquoteKey_safe_text; [reflexivity|exact Hsafe].
Qed.

(** The body of a heredoc literal starts with "<". *)
Lemma heredocBody_head (text : list ascii) :
  strings.HasPrefix text (dquote :: lit "<<") = true ->
  exists b, heredocBody text = "<"%char :: b.
Proof.
  intros [rest ->]%StringFacts.HasPrefix_spec. unfold heredocBody.
  change ((dquote :: lit "<<") ++ rest)
    with (dquote :: "<"%char :: "<"%char :: rest).
  simpl length. simpl drop. change (S (S (S (length rest))) - 2)%nat
    with (S (length rest)).
  rewrite firstn_cons.
  rewrite StringFacts.Replace_nomatch
    by (apply EscapeFacts.HasPrefix_cons_ne; vm_compute; discriminate).
  rewrite StringFacts.Replace_nomatch
    by (apply EscapeFacts.HasPrefix_cons_ne; vm_compute; discriminate).
  eauto.
Qed.

Lemma Split_head (c : ascii) (s : list ascii) :
  c <> newline ->
  exists h t, strings.Split (c :: s) [newline] = (c :: h) :: t.
Proof.
  intros Hc. rewrite SplitFacts.Split_newline_cons.
  apply Ascii.eqb_neq in Hc. rewrite Hc.
  pose proof (SplitFacts.Split_nonempty s).
  destruct (strings.Split s [newline]) as [|h t]; [contradiction|].
  simpl. eauto.
Qed.

(** The three ways the heredoc branch can go; none depends on the
    output. *)
Lemma heredoc_shape (t : token.Token) :
  (forall out, heredoc t out = Done t out) \/
  (forall out, heredoc t out = Panicked (SliceBoundsOutOfRange 1 0) out) \/
  (exists text',
      forall out,
        heredoc t out
        = Done (token.mkToken 10 (token.TokPos t) ("<"%char :: text')
                  (token.JSON t)) out).
Proof.
  destruct (strings.HasPrefix (token.Text t) (dquote :: lit "<<")) eqn:Hp.
  2:{ left. intros out. unfold heredoc. rewrite Hp. reflexivity. }
  destruct (in_dec ascii_dec newline (heredocBody (token.Text t))) as [Hin|Hnot].
  2:{ right. left. intros out.
      apply heredoc_single_line_panics; assumption. }
  right. right.
  destruct (heredocBody_head _ Hp) as [b Hb].
  pose proof (SplitFacts.Split_two_lines _ Hin) as Hlen.
  destruct (Split_head "<"%char b) as (h & tl & Hs);
    [vm_compute; discriminate|].
  rewrite Hb in Hlen. rewrite Hs in Hlen.
  destruct tl as [|l1 ls]; [simpl in Hlen; lia|].
  destruct (@exists_last _ (l1 :: ls)) as (inner & lineN & Hl); [discriminate|].
  rewrite Hl in Hs. rewrite <- Hb in Hs.
  pose proof (fun out => heredoc_rewrite t out _ _ _ Hp Hs) as Hrw.
  destruct (json_Unmarshal _) as [tmp|err] in Hrw.
  - destruct (json_MarshalIndent tmp _ _) as [bytes|err] in Hrw.
    + eexists. intros out. rewrite Hrw. reflexivity.
    + rewrite Hb in Hrw. eexists. exact Hrw.
  - rewrite Hb in Hrw. eexists. exact Hrw.
Qed.

Lemma heredoc_sanitized (t t' : token.Token) out out' :
  heredoc t out = Done t' out' ->
  out' = out /\ blankLiteral t' = blankLiteral t /\
  forall out2, heredoc t' out2 = Done t' out2.
Proof.
  destruct (heredoc_shape t) as [Hsame|[Hpanic|(text' & Hrw)]].
  - rewrite Hsame. intros [= <- <-]. repeat split. exact Hsame.
  - rewrite Hpanic. discriminate.
  - rewrite Hrw. intros [= <- <-]. repeat split.
Qed.

Lemma setLine_setLine (p : token.Pos) (a b : Z) :
  token.setLine (token.setLine p a) b = token.setLine p b.
Proof. reflexivity. Qed.

(** A node that comes out as a literal went in as one. *)
Lemma visit_literal (n : ast.Node) out (t : token.Token) out' :
  visit n out = Done (ast.LiteralType t) out' -> n = ast.LiteralType t.
Proof.
  destruct n as [node|l|k|o|tok|ls|l|ty];
    cbn -[visitObjectItem visitObjectList]; intros H;
    try (apply bind_Done in H as (a & o1 & _ & H));
    unfold ret in H; try discriminate.
  injection H as <- _. reflexivity.
Qed.

Lemma visitObjectItem_sanitized (keys : list ast.ObjectKey)
  (assign : token.Pos) (val : ast.Node) :
  (forall out n' out', visit val out = Done n' out' -> sanitized val out n' out') ->
  forall out o' out',
    visitObjectItem (ast.mkObjectItem keys assign val) out = Done o' out' ->
    sanitizedItem (ast.mkObjectItem keys assign val) out o' out'.
Proof.
  intros Hrec out o' out' H. rewrite visitObjectItem_unfold in H.
  cbn [ast.Keys ast.Val ast.Assign] in H.
  apply bind_Done in H as (keys' & o1 & Hk & H).
  apply visitKeys_sanitized in Hk as (-> & Hkeys & Hk2).
  apply bind_Done in H as (v1 & o2 & Hv1 & H).
  apply bind_Done in H as (v2 & o3 & Hv2 & H).
  unfold ret in H. injection H as <- <-.
  assert (Hlit : (exists t t', val = ast.LiteralType t /\ v2 = ast.LiteralType t'
                     /\ o3 = out /\ blankLiteral t' = blankLiteral t
                     /\ forall out2, heredoc t' out2 = Done t' out2) \/
                 ((forall t, val <> ast.LiteralType t) /\
                  (forall t, v2 <> ast.LiteralType t) /\
                  sanitized val out v2 o3)).
  { destruct val as [node|l|k|o|tok|ls|l|ty];
      try (right; unfold ret in Hv1; injection Hv1 as <- <-;
           split; [discriminate|]; split; [|apply Hrec; exact Hv2];
           intros t Heq; subst v2; apply visit_literal in Hv2; discriminate).
    left. apply bind_Done in Hv1 as (t' & o4 & Ht & Hv1).
    unfold ret in Hv1. injection Hv1 as <- <-.
    unfold ret in Hv2. injection Hv2 as <- <-.
    apply heredoc_sanitized in Ht as (-> & Hb & Ht2).
    exists tok, t'. repeat split; assumption. }
  destruct Hlit as [(t & t' & -> & -> & -> & Hb & Ht2)|(Hval & Hv2n & Hs)].
  - unfold sanitizedItem. cbn [skeletonItem unknownLogItem unknownLog assignForcedItem assignForced].
    fold (blankFirstKey keys') (blankFirstKey keys).
    rewrite Hkeys, Hb, app_nil_r. repeat split.
    intros out2. rewrite visitObjectItem_unfold.
    cbn [ast.Keys ast.Val ast.Assign].
    unfold bind at 1. rewrite Hk2.
    unfold bind at 1. unfold bind at 1. rewrite Ht2.
    unfold ret, bind. rewrite app_nil_r. reflexivity.
  - destruct Hs as (Hsk & -> & Haf & Hv2').
    unfold sanitizedItem. cbn [unknownLogItem assignForcedItem].
    repeat split; [| exact Haf |].
    + cbn [skeletonItem]. fold (blankFirstKey keys') (blankFirstKey keys).
      rewrite Hkeys.
      destruct val as [node|l|k|o|tok|ls|l|ty];
        try (exfalso; eapply Hval; reflexivity);
        destruct v2 as [node2|lst2|k2|itm2|tok2|ls2|lst2|ty2];
        try (exfalso; eapply Hv2n; reflexivity);
        rewrite Hsk; reflexivity.
    + intros out2. rewrite visitObjectItem_unfold.
      cbn [ast.Keys ast.Val ast.Assign].
      unfold bind at 1. rewrite Hk2.
      destruct v2 as [node2|lst2|k2|itm2|tok2|ls2|lst2|ty2];
        try (exfalso; eapply Hv2n; reflexivity);
        unfold bind at 1; unfold ret at 1; unfold bind at 1;
        rewrite Hv2'; reflexivity.
Qed.

Lemma visit_sanitized (n : ast.Node) :
  forall out n' out', visit n out = Done n' out' -> sanitized n out n' out'
with visitObjectItem_sanitized_all (o : ast.ObjectItem) :
  forall out o' out',
    visitObjectItem o out = Done o' out' -> sanitizedItem o out o' out'
with visitObjectList_sanitized (l : ast.ObjectList) :
  forall out l' out',
    visitObjectList l out = Done l' out' -> sanitizedList l out l' out'.
Proof.
  - intros out n' out' H. destruct n as [node|l|k|o|tok|ls|l|ty];
      cbn -[visitObjectItem visitObjectList] in H.
    + apply bind_Done in H as (a & o1 & H & Hr).
      unfold ret in Hr. injection Hr as <- <-.
      apply visit_sanitized in H as (Hsk & Ho & Haf & Hv).
      unfold sanitized. cbn -[visitObjectItem visitObjectList].
      rewrite Hsk. repeat split; try assumption.
      intros out2. unfold bind. rewrite Hv. reflexivity.
    + apply bind_Done in H as (a & o1 & H & Hr).
      unfold ret in Hr. injection Hr as <- <-.
      apply visitObjectList_sanitized in H as (Hsk & Ho & Haf & Hv).
      unfold sanitized. cbn -[visitObjectItem visitObjectList].
      rewrite Hsk. repeat split; try assumption.
      intros out2. unfold bind. rewrite Hv. reflexivity.
    + unfold ret in H. injection H as <- <-. unfold sanitized.
      cbn. rewrite app_nil_r. repeat split.
      intros out2. rewrite app_nil_r. reflexivity.
    + apply bind_Done in H as (a & o1 & H & Hr).
      unfold ret in Hr. injection Hr as <- <-.
      apply visitObjectItem_sanitized_all in H as (Hsk & Ho & Haf & Hv).
      unfold sanitized. cbn -[visitObjectItem visitObjectList].
      rewrite Hsk. repeat split; try assumption.
      intros out2. unfold bind. rewrite Hv. reflexivity.
    + unfold ret in H. injection H as <- <-. unfold sanitized.
      cbn. rewrite app_nil_r. repeat split.
      intros out2. rewrite app_nil_r. reflexivity.
    + unfold ret in H. injection H as <- <-. unfold sanitized.
      cbn. rewrite app_nil_r. repeat split.
      intros out2. rewrite app_nil_r. reflexivity.
    + apply bind_Done in H as (a & o1 & H & Hr).
      unfold ret in Hr. injection Hr as <- <-.
      apply visitObjectList_sanitized in H as (Hsk & Ho & Haf & Hv).
      unfold sanitized. cbn -[visitObjectItem visitObjectList].
      rewrite Hsk. repeat split; try assumption.
      intros out2. unfold bind. rewrite Hv. reflexivity.
    + unfold printf, bind, ret in H. injection H as <- <-.
      unfold sanitized. cbn. repeat split.
  - intros out o' out' H. destruct o as [keys assign val].
    apply (visitObjectItem_sanitized keys assign val (visit_sanitized val)).
    exact H.
  - intros out l' out' H. destruct l as [items].
    cbn -[visitObjectItem] in H.
    apply bind_Done in H as (items' & o1 & H & Hr).
    unfold ret in Hr. injection Hr as <- <-.
    match type of H with
    | ?loop items out = _ => set (lp := loop) in H
    end.
    assert (Hloop :
      skeletonList (ast.mkObjectList items') = skeletonList (ast.mkObjectList items) /\
      o1 = out ++ unknownLogList (ast.mkObjectList items) /\
      assignForcedList (ast.mkObjectList items') /\
      forall out2, lp items' out2
                   = Done items' (out2 ++ unknownLogList (ast.mkObjectList items))).
    { revert out items' o1 H.
      induction items as [|o rest IH]; intros out items' o1 H.
      - subst lp. unfold ret in H. injection H as <- <-.
        cbn. rewrite app_nil_r. repeat split.
        intros out2. rewrite app_nil_r. reflexivity.
      - change (lp (o :: rest))
          with (do o' <- visitObjectItem o; do rest' <- lp rest; ret (o' :: rest'))
          in H.
        apply bind_Done in H as (o' & o2 & Ho & H).
        apply bind_Done in H as (r' & o3 & Hr & H).
        unfold ret in H. injection H as <- <-.
        apply visitObjectItem_sanitized_all in Ho as (Hsk & -> & Haf & Hv).
        apply IH in Hr as (Hsk' & -> & Haf' & Hv').
        cbn -[visitObjectItem] in Hsk' |- *.
        injection Hsk' as Hsk'.
        rewrite Hsk, Hsk', app_assoc. repeat split; try assumption.
        intros out2.
        change (lp (o' :: r'))
          with (do o'' <- visitObjectItem o'; do rest' <- lp r'; ret (o'' :: rest')).
        unfold bind at 1. rewrite Hv. unfold bind at 1.
        cbn -[visitObjectItem] in Hv'. rewrite Hv'.
        unfold ret. rewrite app_assoc. reflexivity. }
    destruct Hloop as (Hsk & Ho & Haf & Hv).
    unfold sanitizedList. repeat split; try assumption.
    intros out2. cbn -[visitObjectItem]. fold lp. unfold bind.
    rewrite Hv. reflexivity.
Qed.

End TraversalFacts.

Section TraversalProperties.
Context `{E : Externals}.

(** X3: a traversal that completes keeps the tree but for the text of the first
    key of each item, the text and type of each literal that is the value of
    an item, and the line of each [Assign]: no node is added, removed or
    reordered, and the elements of lists, the other keys, the positions and
    the [JSON] flags are as they were. *)
Theorem visit_keeps_skeleton (n n' : ast.Node) out out' :
  visit n out = Done n' out' -> skeleton n' = skeleton n.
Proof. intros H. apply visit_sanitized in H. apply H. Qed.

(** X4: a traversal that completes prints one report for each node of
    unrecognized kind on its path, in the order of the path, and nothing
    else. *)
Theorem visit_reports_unknown_kinds (n n' : ast.Node) out out' :
  visit n out = Done n' out' -> out' = out ++ unknownLog n.
Proof. intros H. apply visit_sanitized in H. apply H. Qed.

(** X6: after a traversal that completes, every item on its path has
    [Assign.Line = 1]. *)
Theorem visit_forces_assign (n n' : ast.Node) out out' :
  visit n out = Done n' out' -> assignForced n'.
Proof. intros H. apply visit_sanitized in H. apply H. Qed.

(** X5: sanitizing is idempotent on the tree: a second traversal completes,
    changes nothing, and prints the same reports again. *)
Theorem visit_idempotent (n n' : ast.Node) out out' :
  visit n out = Done n' out' ->
  forall out2, visit n' out2 = Done n' (out2 ++ unknownLog n).
Proof. intros H. apply visit_sanitized in H. apply H. Qed.

(** X7: a first key whose token text does not start with a double quote, or
    does not end with one, is left as it is, with all the other keys. *)
Theorem visitKeys_unquoted_key (k : ast.ObjectKey)
  (rest : list ast.ObjectKey) out :
  (forall tl, token.Text (ast.Token k) <> dquote :: tl) \/
  (forall hd, token.Text (ast.Token k) <> hd ++ [dquote]) ->
  visitKeys 0 (k :: rest) out = Done (k :: rest) out.
Proof.
  intros Hk. rewrite KeyFacts.visitKeys_first.
  destruct (unquoteKey_shape k) as [Hsame|[Hlone|(v & Ht & _)]].
  - rewrite Hsame. reflexivity.
  - exfalso. destruct Hk as [Hk|Hk].
    + exact (Hk [] Hlone).
    + exact (Hk [] Hlone).
  - exfalso. destruct Hk as [Hk|Hk].
    + exact (Hk _ Ht).
    + apply (Hk (dquote :: v)). exact Ht.
Qed.

(** X2: a literal value that starts with the heredoc marker and whose body has
    a first line, inner lines and a last line becomes a heredoc token: the
    position and the [JSON] flag stay, the type is 10, and the text is the
    first line, the decoded inner lines printed with two-space indentation
    and the last line when the inner lines (their escaped quotes undone)
    decode, and the body with its escaped newlines undone and its escaped
    tabs deleted when they do not. *)
Theorem heredoc_recovers_body (t : token.Token) out
  (line0 lineN : list ascii) (inner : list (list ascii)) :
  strings.HasPrefix (token.Text t) (dquote :: lit "<<") = true ->
  strings.Split (heredocBody (token.Text t)) [newline]
    = line0 :: inner ++ [lineN] ->
  heredoc t out =
  Done (token.mkToken 10 (token.TokPos t)
          match json_Unmarshal
                  (strings.Replace (strings.Join inner [newline])
                     [bslash; dquote] [dquote]) with
          | Ok tmp =>
              match json_MarshalIndent tmp [] (lit "  ") with
              | Ok dataJsonBytes =>
                  line0 ++ [newline] ++ dataJsonBytes ++ [newline] ++ lineN
              | Err _ => heredocBody (token.Text t)
              end
          | Err _ => heredocBody (token.Text t)
          end
          (token.JSON t)) out.
Proof. apply heredoc_rewrite. Qed.

End TraversalProperties.

Lemma visit_keeps_skeleton_witness :
  exists n' out',
    @visit SampleStrict.externals SampleStrict.tree [] = Done n' out' /\
    skeleton n' = skeleton SampleStrict.tree.
Proof.
  eexists _, _. split; [reflexivity|].
  eapply (@visit_keeps_skeleton SampleStrict.externals SampleStrict.tree _ []).
  reflexivity.
Defined.

Lemma visit_reports_unknown_kinds_witness :
  exists n' out',
    @visit SampleStrict.externals SampleStrict.tree [] = Done n' out' /\
    out' = [lit " unknown type: *ast.CommentGroup" ++ [newline]].
Proof.
  eexists _, _. split; [reflexivity|].
  eapply (@visit_reports_unknown_kinds SampleStrict.externals SampleStrict.tree _ []).
  reflexivity.
Defined.

Lemma visit_forces_assign_witness :
  exists n' out',
    @visit SampleStrict.externals SampleStrict.tree [] = Done n' out' /\
    assignForced n'.
Proof.
  eexists _, _. split; [reflexivity|].
  eapply (@visit_forces_assign SampleStrict.externals SampleStrict.tree _ []).
  reflexivity.
Defined.

Lemma visit_idempotent_witness :
  exists n' out',
    @visit SampleStrict.externals SampleStrict.tree [] = Done n' out' /\
    forall out2,
      @visit SampleStrict.externals n' out2
      = Done n' (out2 ++ unknownLog SampleStrict.tree).
Proof.
  eexists _, _. split; [reflexivity|].
  eapply (@visit_idempotent SampleStrict.externals SampleStrict.tree _ []).
  reflexivity.
Defined.

Lemma visitKeys_unquoted_key_witness :
  ((forall tl, lit "name" <> dquote :: tl) \/
   (forall hd, lit "name" <> hd ++ [dquote])) /\
  visitKeys 0
    [ast.mkObjectKey (token.mkToken token.STRING Sample.noPos (lit "name") true)] []
  = Done
      [ast.mkObjectKey (token.mkToken token.STRING Sample.noPos (lit "name") true)] [].
Proof.
  assert (H : (forall tl, lit "name" <> dquote :: tl) \/
              (forall hd, lit "name" <> hd ++ [dquote]))
    by (left; intros tl; discriminate).
  split; [exact H|].
  apply (visitKeys_unquoted_key
           (ast.mkObjectKey (token.mkToken token.STRING Sample.noPos (lit "name") true))
           [] [] H).
Defined.

Lemma heredoc_recovers_body_witness :
  strings.HasPrefix (token.Text SampleStrict.heredocToken) (dquote :: lit "<<")
  = true /\
  @heredoc SampleStrict.externals SampleStrict.heredocToken []
  = Done (token.mkToken 10 Sample.noPos
            (lit "<<EOF" ++ [newline] ++ SampleStrict.prettyText ++ [newline]
               ++ lit "EOF") true) [].
Proof.
  split; [reflexivity|].
  apply (@heredoc_recovers_body SampleStrict.externals SampleStrict.heredocToken []
           (lit "<<EOF") (lit "EOF")
           [lit "{" ++ [bslash; dquote] ++ lit "a" ++ [bslash; dquote] ++ lit ": "
              ++ [bslash; dquote] ++ lit "b" ++ [bslash; dquote] ++ lit "}"]);
    reflexivity.
Defined.

(** ** The document builder and the printer *)

Section BuilderProperties.
Context `{E : Externals}.

Implicit Types m : gmap (list ascii) (gmap (list ascii) (option GoValue)).

Lemma occupied_slot m (k : list ascii * list ascii) :
  occupied m k = nonNil (slot m k).
Proof. unfold occupied, slot. destruct (m !! k.1); reflexivity. Qed.

Lemma slot_filed m (res : TerraformResource) (k : list ascii * list ascii) :
  slot (filed m res) k =
  if decide (k = keyOf res) then Some (Item res) else slot m k.
Proof.
  unfold slot, filed, keyOf. destruct k as [ty n]. simpl.
  destruct (decide ((ty, n) = (ResourceType res, TfSanitize (ResourceName res))))
    as [Heq|Hne].
  - injection Heq as -> ->. rewrite !lookup_insert_eq. reflexivity.
  - destruct (decide (ty = ResourceType res)) as [->|Hty].
    + rewrite lookup_insert_eq, lookup_insert_ne by congruence.
      destruct (m !! ResourceType res); simpl; [reflexivity|].
      rewrite lookup_empty. reflexivity.
    + rewrite lookup_insert_ne by congruence. reflexivity.
Qed.

Lemma groupResources_distinct_from (l : list TerraformResource) m0 :
  NoDup (map keyOf l) ->
  (forall res, In res l -> slot m0 (keyOf res) = None) ->
  exists m,
    groupResources l m0 = Ok m /\
    (forall res, In res l -> slot m (keyOf res) = Some (Item res)) /\
    (forall k, ~ In k (map keyOf l) -> slot m k = slot m0 k).
Proof.
  revert m0. induction l as [|r l IH]; intros m0 Hnd Hfree.
  - exists m0. split; [reflexivity|]. split; [intros res []|reflexivity].
  - rewrite groupResources_cons, occupied_slot.
    rewrite (Hfree r) by (left; reflexivity). cbn [nonNil].
    apply NoDup_cons in Hnd as [Hnotin Hnd].
    destruct (IH (filed m0 r) Hnd) as (m & Hm & Hin & Hout).
    { intros res Hres. rewrite slot_filed.
      destruct (decide (keyOf res = keyOf r)) as [Heq|_].
      - exfalso. apply Hnotin. rewrite <- Heq. apply list_elem_of_In.
        apply in_map. exact Hres.
      - apply Hfree. right. exact Hres. }
    exists m. split; [exact Hm|]. split.
    + intros res [<-|Hres]; [|apply Hin; exact Hres].
      rewrite Hout by (intros Hk; apply Hnotin; apply list_elem_of_In; exact Hk).
      rewrite slot_filed, decide_True by reflexivity. reflexivity.
    + intros k Hk. rewrite Hout by (intros Hk'; apply Hk; right; exact Hk').
      rewrite slot_filed, decide_False; [reflexivity|].
      intros ->. apply Hk. left. reflexivity.
Qed.

(** X12: entries with pairwise distinct (ResourceType, sanitized name) keys are
    grouped without error, and the map holds exactly them: each entry's
    Item, nil included, under its type and sanitized name, and nothing under
    any other pair. *)
Theorem groupResources_distinct_keys (resources : list TerraformResource) :
  NoDup (map keyOf resources) ->
  exists m,
    groupResources resources ∅ = Ok m /\
    (forall res, In res resources -> slot m (keyOf res) = Some (Item res)) /\
    (forall k, ~ In k (map keyOf resources) -> slot m k = None).
Proof.
  intros Hnd.
  destruct (groupResources_distinct_from resources ∅ Hnd) as (m & Hm & Hin & Hout).
  { intros res _. unfold slot. rewrite lookup_empty. reflexivity. }
  exists m. split; [exact Hm|]. split; [exact Hin|].
  intros k Hk. rewrite (Hout k Hk). unfold slot. rewrite lookup_empty.
  reflexivity.
Qed.

Lemma groupResources_error (l : list TerraformResource) m msg :
  groupResources l m = Err msg ->
  strings.HasPrefix msg (lit "duplicate resource found: ") = true.
Proof.
  revert m. induction l as [|r l IH]; intros m; [discriminate|].
  rewrite groupResources_cons. destruct (occupied m (keyOf r)).
  - intros [= <-].
    apply (StringFacts.HasPrefix_app_same (lit "duplicate resource found: ")).
  - apply IH.
Qed.

Lemma dumpLines_chunks (lines : list (list ascii)) (i : Z) out :
  dumpLines i lines out = Done tt (out ++ dumpChunks i lines).
Proof.
  revert i out. induction lines as [|line rest IH]; intros i out.
  - simpl. unfold ret. rewrite app_nil_r. reflexivity.
  - simpl. unfold bind, printf. rewrite IH. rewrite <- app_assoc. reflexivity.
Qed.

(** What [hclPrint] does once the traversal has completed. *)
Lemma hclPrint_after_visit (node node' : ast.Node) out out1 :
  visit node out = Done node' out1 ->
  hclPrint node out =
  match hcl_printer_Fprint node' with
  | Err err => Done ([], Some (lit "error writing HCL: " ++ err)) out1
  | Ok s =>
      let s := unescapeAngles (unescapeQuotes (removeExtraWhitespace s)) in
      match hcl_printer_Format s with
      | Err err =>
          Done ([], Some (lit "error formatting HCL: " ++ err))
            (out1 ++ dumpChunks 0 (strings.Split s [newline]))
      | Ok formatted => Done (formatted, None) out1
      end
  end.
Proof.
  intros Hv. unfold hclPrint, bind. rewrite Hv.
  destruct (hcl_printer_Fprint node') as [s|err]; [|reflexivity].
  cbv zeta. destruct (hcl_printer_Format _) as [f|err]; [reflexivity|].
  unfold logPrintln. rewrite dumpLines_chunks. reflexivity.
Qed.

Lemma hclPrint_error (node : ast.Node) out bytes msg out' :
  hclPrint node out = Done (bytes, Some msg) out' ->
  bytes = [] /\
  (strings.HasPrefix msg (lit "error writing HCL: ") = true \/
   strings.HasPrefix msg (lit "error formatting HCL: ") = true).
Proof.
  destruct (visit node out) as [node' out1|p o] eqn:Hv.
  - rewrite (hclPrint_after_visit _ _ _ _ Hv).
    destruct (hcl_printer_Fprint node') as [s|err].
    + cbv zeta. destruct (hcl_printer_Format _) as [f|err]; [discriminate|].
      intros [= <- <- <-]. split; [reflexivity|]. right.
      apply (StringFacts.HasPrefix_app_same (lit "error formatting HCL: ") err).
    + intros [= <- <- <-]. split; [reflexivity|]. left.
      apply (StringFacts.HasPrefix_app_same (lit "error writing HCL: ") err).
  - unfold hclPrint, bind. rewrite Hv. discriminate.
Qed.

(** X14: [HclPrint] returns no bytes together with an error, and every error is
    one of five kinds, told apart by the start of its message. *)
Theorem HclPrint_error_no_output (resources : list TerraformResource)
  (provider : gmap (list ascii) (option GoValue)) out
  (bytes msg : list ascii) out' :
  HclPrint resources provider out = Done (bytes, Some msg) out' ->
  bytes = [] /\
  (strings.HasPrefix msg (lit "duplicate resource found: ") = true \/
   strings.HasPrefix msg (lit "error marshalling terraform data to json: ") = true \/
   strings.HasPrefix msg (lit "error parsing terraform json: ") = true \/
   strings.HasPrefix msg (lit "error writing HCL: ") = true \/
   strings.HasPrefix msg (lit "error formatting HCL: ") = true).
Proof.
  unfold HclPrint, terraformJson.
  destruct (groupResources resources ∅) as [m|e] eqn:Hg.
  - destruct (json_MarshalIndent _ _ _) as [dataJson|e].
    + destruct (hcl_parser_Parse _) as [nodes|e].
      * intros H. apply bind_Done in H as ([b [e|]] & o1 & Hp & H);
          unfold ret in H; [|discriminate].
        injection H as <- <- <-. apply hclPrint_error in Hp as [_ Hp].
        split; [reflexivity|]. tauto.
      * unfold ret. intros [= <- <- <-]. split; [reflexivity|].
        right. right. left.
        apply (StringFacts.HasPrefix_app_same (lit "error parsing terraform json: ") e).
    + unfold ret. intros [= <- <- <-]. split; [reflexivity|].
      right. left.
      apply (StringFacts.HasPrefix_app_same
               (lit "error marshalling terraform data to json: ") e).
  - unfold ret. intros [= <- <- <-]. split; [reflexivity|].
    left. eapply groupResources_error. exact Hg.
Qed.

(** X16: [HclPrint] ends in a run-time panic exactly when the grouping, the
    encoding and the parsing succeed and the parsed tree is one on which the
    traversal does not complete. *)
Theorem HclPrint_panics_iff (resources : list TerraformResource)
  (provider : gmap (list ascii) (option GoValue)) out :
  (exists p out', HclPrint resources provider out = Panicked p out') <->
  (exists dataJson nodes,
      terraformJson resources provider = Ok dataJson /\
      hcl_parser_Parse dataJson = Ok nodes /\
      ~ visitable nodes).
Proof.
  unfold HclPrint.
  destruct (terraformJson resources provider) as [dataJson|e].
  2:{ split; [intros (p & o & H); discriminate|].
      intros (d & n & H & _). discriminate. }
  destruct (hcl_parser_Parse dataJson) as [nodes|e] eqn:Hparse.
  2:{ split; [intros (p & o & H); discriminate|].
      intros (d & n & [= <-] & H & _). congruence. }
  split.
  - intros (p & o & H). exists dataJson, nodes. repeat split; try assumption.
    intros Hvis. destruct (visit_completes nodes Hvis out) as (n' & o1 & Hv).
    unfold bind in H. rewrite (hclPrint_after_visit _ _ _ _ Hv) in H.
    destruct (hcl_printer_Fprint n') as [s|err]; [|discriminate].
    cbv zeta in H. destruct (hcl_printer_Format _) as [f|err]; discriminate.
  - intros (d & n & [= <-] & Hn & Hvis). rewrite Hparse in Hn.
    injection Hn as <-.
    destruct (visit nodes out) as [n' o1|p o] eqn:Hv.
    + exfalso. apply Hvis. eapply visit_Done. exact Hv.
    + exists p, o. unfold bind, hclPrint, bind. rewrite Hv. reflexivity.
Qed.

End BuilderProperties.

Lemma groupResources_distinct_keys_witness :
  NoDup (map (@keyOf SampleStrict.externals) SampleStrict.distinct) /\
  exists m,
    @groupResources SampleStrict.externals SampleStrict.distinct ∅ = Ok m /\
    @slot SampleStrict.externals m (lit "t", lit "a-b")
    = Some (Some (Sample.Str (lit "x"))) /\
    @slot SampleStrict.externals m (lit "u", lit "a-b") = Some None.
Proof.
  assert (Hnd : NoDup (map (@keyOf SampleStrict.externals) SampleStrict.distinct)).
  { apply NoDup_cons. split; [|apply NoDup_singleton].
    intros Hin. apply list_elem_of_singleton in Hin. discriminate Hin. }
  split; [exact Hnd|].
  destruct (@groupResources_distinct_keys SampleStrict.externals
              SampleStrict.distinct Hnd) as (m & Hm & Hin & _).
  exists m. split; [exact Hm|]. split.
  - apply (Hin (@mkTerraformResource SampleStrict.externals (lit "t") (lit "a.b")
                  (Some (Sample.Str (lit "x"))))).
    left. reflexivity.
  - apply (Hin (@mkTerraformResource SampleStrict.externals (lit "u") (lit "a-b")
                  None)).
    right. left. reflexivity.
Defined.

Lemma HclPrint_duplicate_resource_witness :
  Forall (fun r => @Item SampleStrict.externals r <> None) SampleStrict.duplicates /\
  ~ NoDup (map (@keyOf SampleStrict.externals) SampleStrict.duplicates) /\
  exists pre res post,
    SampleStrict.duplicates = pre ++ res :: post /\
    NoDup (map (@keyOf SampleStrict.externals) pre) /\
    In (@keyOf SampleStrict.externals res) (map (@keyOf SampleStrict.externals) pre) /\
    forall out,
      @HclPrint SampleStrict.externals SampleStrict.duplicates ∅ out
      = Done ([], Some (duplicateError (@keyOf SampleStrict.externals res))) out.
Proof.
  assert (Hitems : Forall (fun r => @Item SampleStrict.externals r <> None)
                     SampleStrict.duplicates).
  { repeat constructor; discriminate. }
  assert (Hdup : ~ NoDup (map (@keyOf SampleStrict.externals) SampleStrict.duplicates)).
  { intros Hnd. apply NoDup_cons in Hnd as [Hnotin _]. apply Hnotin.
    apply list_elem_of_singleton. reflexivity. }
  split; [exact Hitems|]. split; [exact Hdup|].
  apply (@HclPrint_duplicate_resource SampleStrict.externals
           SampleStrict.duplicates ∅ Hitems Hdup).
Defined.

Lemma HclPrint_error_no_output_witness :
  @HclPrint SampleStrict.externals SampleStrict.duplicates ∅ []
  = Done ([], Some (lit "duplicate resource found: t.a-b")) [] /\
  ([] : list ascii) = [] /\
  (strings.HasPrefix (lit "duplicate resource found: t.a-b")
     (lit "duplicate resource found: ") = true \/
   strings.HasPrefix (lit "duplicate resource found: t.a-b")
     (lit "error marshalling terraform data to json: ") = true \/
   strings.HasPrefix (lit "duplicate resource found: t.a-b")
     (lit "error parsing terraform json: ") = true \/
   strings.HasPrefix (lit "duplicate resource found: t.a-b")
     (lit "error writing HCL: ") = true \/
   strings.HasPrefix (lit "duplicate resource found: t.a-b")
     (lit "error formatting HCL: ") = true).
Proof.
  split; [reflexivity|].
  apply (@HclPrint_error_no_output SampleStrict.externals
           SampleStrict.duplicates ∅ [] [] _ []).
  reflexivity.
Defined.
